(** * Picture Transfer Protocol: codecs and session state machine

    A shallow embedding of [ptp.py]: the frame and descriptor codecs that
    the module assembles from the [construct] combinators, and the
    session / transaction bookkeeping of [PTPDevice]. *)

From Stdlib Require Import ZArith List String Ascii Bool Lia.
From Stdlib Require Import Strings.Byte.
Import ListNotations.
Open Scope string_scope.
Open Scope list_scope.
Open Scope Z_scope.

(** ** Python values and exceptions *)

(** The Python objects that flow through the modelled code. *)
Inductive pyval : Type :=
| PyNone
| PyInt (z : Z)
| PyBool (b : bool)
| PyStr (s : string).

(** Exceptions raised by the module, by [construct], by [contextlib], by
    the Python runtime and by a transport. *)
Inductive exn : Type :=
| PTPError (msg : string)
| PTPUnimplemented (msg : string)
| RuntimeError (msg : string)
| TransportFailure (info : string)
| FieldError
| ArrayError (expected found : Z)
| MappingError
| BitIntegerError
| AttributeError (key : string)
| KeyError
| TypeError
| UnicodeDecodeError
| UnicodeEncodeError.

Inductive result (A : Type) : Type :=
| Ok (a : A)
| Raise (e : exn).
Arguments Ok {A} a.
Arguments Raise {A} e.

Definition rbind {A B} (m : result A) (k : A -> result B) : result B :=
  match m with
  | Ok a => k a
  | Raise e => Raise e
  end.

Notation "'try!' x := m 'in' k" := (rbind m (fun x => k))
  (at level 10, x pattern, m at level 100, k at level 200).

(** A symbolic or numeric protocol code: Python passes either the name of
    an [Enum] entry (a [str]) or a bare integer. *)
Inductive code : Type :=
| Sym (name : string)
| Num (n : Z).

(** [construct.Container] with the four keys every PTP frame carries.
    The first key is [OperationCode], [ResponseCode] or [EventCode]
    according to the frame, so the key itself is kept as [code_key]; the
    key [Parameter] is spelled [Parameter_] (the bare word is reserved). *)
Record Container : Type := mkContainer {
  code_key : string;
  code_value : code;
  SessionID_ : Z;
  TransactionID_ : Z;
  Parameter_ : list Z
}.

(** ** The session / transaction state of [PTPDevice] *)

Module Device.
Section WithTransport.

(** What the transport keeps for itself, and what it answers. *)
Variable T : Type.
Variable Resp : Type.

(** The instance attributes [__session] and [__transaction_id] (both start
    at the class attribute 0) next to the transport's own state. *)
Record PTPDevice : Type := mkDevice {
  __session : Z;
  __transaction_id : Z;
  transport : T
}.

Definition set_session (v : Z) (d : PTPDevice) : PTPDevice :=
  mkDevice v (__transaction_id d) (transport d).

Definition set_transaction_id (v : Z) (d : PTPDevice) : PTPDevice :=
  mkDevice (__session d) v (transport d).

(** Methods are state transformers on the device that return or raise. *)
Definition M (A : Type) : Type := PTPDevice -> result A * PTPDevice.

Definition ret {A} (a : A) : M A := fun d => (Ok a, d).

Definition bind {A B} (m : M A) (k : A -> M B) : M B :=
  fun d => match m d with
           | (Ok a, d') => k a d'
           | (Raise e, d') => (Raise e, d')
           end.

Definition gets {A} (f : PTPDevice -> A) : M A := fun d => (Ok (f d), d).
Definition modify (f : PTPDevice -> PTPDevice) : M unit := fun d => (Ok tt, f d).
Definition raise {A} (e : exn) : M A := fun d => (Raise e, d).

Notation "x <- m ;; k" := (bind m (fun x => k))
  (at level 61, m at next level, right associativity).
Notation "m ;;; k" := (bind m (fun _ => k))
  (at level 61, right associativity).

(** The transport's no-dataphase primitive.  It is a method of the same
    object, so it sees (and may change) the whole device. *)
Variable mesg : Container -> M Resp.

(** [__transaction] getter: hand out the current id, then advance. *)
Definition __transaction : M Z :=
  current_id <- gets __transaction_id ;;
  modify (fun d => set_transaction_id (__transaction_id d + 1) d) ;;;
  now <- gets __transaction_id ;;
  (if now >? 0xFFFFFFFE
   then modify (set_transaction_id 1)
   else ret tt) ;;;
  ret current_id.

(** [__transaction] setter: only a reset is accepted. *)
Definition __transaction_setter (value : Z) : M unit :=
  if negb (value =? 0)
  then raise (PTPError "Current TransactionID should not be set. Only reset.")
  else modify (set_transaction_id 0).

(** [session_id] getter and setter. *)
Definition session_id : M Z := gets __session.

Definition session_id_setter (value : pyval) : M unit := ret tt.

Definition open_session : M Resp :=
  modify (fun d => set_session (__session d + 1) d) ;;;
  __transaction_setter 0 ;;;
  tid <- __transaction ;;
  s <- gets __session ;;
  let ptp := mkContainer "OperationCode" (Sym "OpenSession") 0 tid [s; 0; 0; 0; 0] in
  response <- mesg ptp ;;
  ret response.

Definition close_session : M Resp :=
  s <- gets __session ;;
  tid <- __transaction ;;
  let ptp := mkContainer "OperationCode" (Sym "CloseSession") s tid [0; 0; 0; 0; 0] in
  response <- mesg ptp ;;
  ret response.

(** *** [session()]: a generator under [contextlib.contextmanager]

    The generator body is
    [try: self.open_session(); yield  finally: self.close_session()].
    What the generator frame itself does is recorded as a list of
    [action]s, kept apart from the device so that a caller's body cannot
    touch it. *)
Inductive action : Type :=
| CallOpen
| RunBody
| CallClose.

Definition action_eqb (a b : action) : bool :=
  match a, b with
  | CallOpen, CallOpen | RunBody, RunBody | CallClose, CallClose => true
  | _, _ => false
  end.

Definition count (a : action) (t : list action) : nat :=
  List.length (List.filter (action_eqb a) t).

(** How a run of the generator ends: suspended at [yield], finished
    (StopIteration), the exception thrown into it coming back out, or a
    new exception. *)
Inductive gen_step : Type :=
| Yielded
| Stopped
| Rethrown
| Threw (e : exn).

(** The [finally] clause, entered with what is pending. *)
Definition session_finally (pending : gen_step) (d : PTPDevice)
  : list action * gen_step * PTPDevice :=
  match close_session d with
  | (Ok _, d') => ([CallClose], pending, d')
  | (Raise e', d') => ([CallClose], Threw e', d')
  end.

(** [next(gen)] on the fresh generator: run up to the [yield]. *)
Definition session_start (d : PTPDevice) : list action * gen_step * PTPDevice :=
  match open_session d with
  | (Ok _, d1) => ([CallOpen], Yielded, d1)
  | (Raise e, d1) =>
      let '(t, st, d2) := session_finally (Threw e) d1 in
      (CallOpen :: t, st, d2)
  end.

(** Resuming the generator suspended at [yield]: [next(gen)] or
    [gen.throw(e)].  Either way control falls into [finally]. *)
Inductive resume : Type :=
| Next
| Throw (e : exn).

Definition session_resume (r : resume) (d : PTPDevice)
  : list action * gen_step * PTPDevice :=
  match r with
  | Next => session_finally Stopped d
  | Throw _ => session_finally Rethrown d
  end.

(** How the body of a [with] statement is left. *)
Inductive completion : Type :=
| Normal
| EarlyReturn (v : pyval)
| Raised (e : exn).

(** [GeneratorContextManager.__enter__]. *)
Definition cm_enter (d : PTPDevice) : list action * result unit * PTPDevice :=
  let '(t, st, d') := session_start d in
  (t,
   match st with
   | Yielded => Ok tt
   | Stopped | Rethrown => Raise (RuntimeError "generator didn't yield")
   | Threw e => Raise e
   end,
   d').

(** [GeneratorContextManager.__exit__]; the boolean says whether the
    body's exception is swallowed. *)
Definition cm_exit (c : completion) (d : PTPDevice)
  : list action * result bool * PTPDevice :=
  match c with
  | Raised e =>
      let '(t, st, d') := session_resume (Throw e) d in
      (t,
       match st with
       | Yielded => Raise (RuntimeError "generator didn't stop after throw()")
       | Stopped => Ok true
       | Rethrown => Ok false
       | Threw e' => Raise e'
       end,
       d')
  | Normal | EarlyReturn _ =>
      let '(t, st, d') := session_resume Next d in
      (t,
       match st with
       | Yielded => Raise (RuntimeError "generator didn't stop")
       | Stopped => Ok false
       | Rethrown => Ok false
       | Threw e' => Raise e'
       end,
       d')
  end.

(** [with self.session(): body]. *)
Definition with_session (body : PTPDevice -> completion * PTPDevice)
  (d : PTPDevice) : list action * completion * PTPDevice :=
  let '(t1, r, d1) := cm_enter d in
  match r with
  | Raise e => (t1, Raised e, d1)
  | Ok _ =>
      let '(c, d2) := body d1 in
      let '(t2, x, d3) := cm_exit c d2 in
      (t1 ++ RunBody :: t2,
       match x with
       | Raise e' => Raised e'
       | Ok true => Normal
       | Ok false => c
       end,
       d3)
  end.

(** *** Repeated use of the transaction-id producer *)

(** The device after [n] reads of [__transaction]. *)
Fixpoint after_reads (n : nat) (d : PTPDevice) : PTPDevice :=
  match n with
  | O => d
  | S k => snd (__transaction (after_reads k d))
  end.

(** The value handed out by read number [n] (counting from 0). *)
Definition nth_read (n : nat) (d : PTPDevice) : result Z :=
  fst (__transaction (after_reads n d)).

End WithTransport.

Arguments mkDevice {T} __session __transaction_id transport.
Arguments __session {T} p.
Arguments __transaction_id {T} p.
Arguments transport {T} p.
Arguments set_session {T} v d.
Arguments set_transaction_id {T} v d.
Arguments ret {T A} a.
Arguments bind {T A B} m k.
Arguments gets {T A} f.
Arguments modify {T} f.
Arguments raise {T A} e.
Arguments __transaction {T}.
Arguments __transaction_setter {T} value.
Arguments session_id {T}.
Arguments session_id_setter {T} value.
Arguments open_session {T Resp} mesg.
Arguments close_session {T Resp} mesg.
Arguments session_finally {T Resp} mesg pending d.
Arguments session_start {T Resp} mesg d.
Arguments session_resume {T Resp} mesg r d.
Arguments cm_enter {T Resp} mesg d.
Arguments cm_exit {T Resp} mesg c d.
Arguments with_session {T Resp} mesg body d.
Arguments after_reads {T} n d.
Arguments nth_read {T} n d.

(** [PTPDevice.mesg] as the base class has it: a transport must
    override it. *)
Definition base_mesg {T Resp} (ptp_container : Container) : M T Resp :=
  raise (PTPUnimplemented
           "Please implement PTP no-dataphase command for this transport.").

(** A transport that answers every frame with [OK] and keeps the frames
    it was handed, oldest first. *)
Definition recording_mesg (ptp_container : Container)
  : M (list Container) code :=
  fun d =>
    (Ok (Sym "OK"),
     mkDevice (__session d) (__transaction_id d)
       (transport d ++ [ptp_container])).

(** The id that read number [n] (counting from 0) of a fresh counter is
    expected to hand out: 0, 1, ..., 0xFFFFFFFE, 1, 2, ... *)
Definition issued (n : nat) : Z :=
  if (n =? 0)%nat then 0 else 1 + (Z.of_nat n - 1) mod 0xFFFFFFFE.

End Device.

(** ** The [construct] combinators used by the module

    [construct] is a third-party package; the combinators below follow
    the 2.5 series the module imports from ([UNInt8], [BitField],
    [PascalString], [Enum] with [_default_]). *)

Module Codec.
Section WithHost.

(** [sys.byteorder == 'little'] on the machine that runs the module: what
    the native-endian fields and the BOM-less UTF-16 codec fall back to. *)
Variable host_little : bool.

(** A construct: its name, the stream parser (what it returns and what is
    left of the stream) and the builder (the bytes it writes). *)
Record Construct (A : Type) : Type := mkConstruct {
  name : string;
  _parse : list byte -> result (A * list byte);
  _build : A -> result (list byte)
}.
Arguments mkConstruct {A} name _parse _build.
Arguments name {A} c.
Arguments _parse {A} c stream.
Arguments _build {A} c obj.

(** [Construct.parse]: whatever follows the parsed object is ignored. *)
Definition parse {A} (c : Construct A) (data : list byte) : result A :=
  match _parse c data with
  | Ok (obj, _) => Ok obj
  | Raise e => Raise e
  end.

(** [Construct.build]. *)
Definition build {A} (c : Construct A) (obj : A) : result (list byte) :=
  _build c obj.

(** [_read_stream]: exactly [n] bytes or [FieldError]. *)
Definition _read_stream (n : nat) (stream : list byte)
  : result (list byte * list byte) :=
  if (List.length stream <? n)%nat
  then Raise FieldError
  else Ok (firstn n stream, skipn n stream).

(** *** Fixed-width integers: [FormatField] over [struct] *)

Inductive endianity : Type :=
| LittleEndian   (* "<" *)
| BigEndian      (* ">" *)
| NativeEndian.  (* "=" *)

Definition byte_of_Z (z : Z) : byte :=
  match Byte.of_N (Z.to_N (z mod 256)) with
  | Some b => b
  | None => x00
  end.

Definition Z_of_byte (b : byte) : Z := Z.of_N (Byte.to_N b).

(** The [n] low bytes of [z], least significant first. *)
Fixpoint le_bytes (n : nat) (z : Z) : list byte :=
  match n with
  | O => []
  | S k => byte_of_Z (z mod 256) :: le_bytes k (z / 256)
  end.

Fixpoint le_value (bs : list byte) : Z :=
  match bs with
  | [] => 0
  | b :: rest => Z_of_byte b + 256 * le_value rest
  end.

(** Put least-significant-first bytes in wire order, and back. *)
Definition wire_order (e : endianity) (bs : list byte) : list byte :=
  match e with
  | LittleEndian => bs
  | BigEndian => rev bs
  | NativeEndian => if host_little then bs else rev bs
  end.

(** [struct.pack] of an unsigned integer on [n] bytes; a value that does
    not fit is a [struct.error], which [FormatField] re-raises as
    [FieldError]. *)
Definition pack (e : endianity) (n : nat) (z : Z) : result (list byte) :=
  if (0 <=? z) && (z <? 256 ^ Z.of_nat n)
  then Ok (wire_order e (le_bytes n z))
  else Raise FieldError.

Definition unpack (e : endianity) (bs : list byte) : Z :=
  le_value (wire_order e bs).

Definition FormatField (e : endianity) (n : nat) (nm : string) : Construct Z :=
  mkConstruct nm
    (fun stream =>
       match _read_stream n stream with
       | Ok (data, rest) => Ok (unpack e data, rest)
       | Raise err => Raise err
       end)
    (fun obj =>
       match pack e n obj with
       | Ok data => Ok data
       | Raise _ => Raise FieldError
       end).

Definition ULInt8 := FormatField LittleEndian 1.
Definition UBInt8 := FormatField BigEndian 1.
Definition UNInt8 := FormatField NativeEndian 1.
Definition ULInt16 := FormatField LittleEndian 2.
Definition UBInt16 := FormatField BigEndian 2.
Definition UNInt16 := FormatField NativeEndian 2.
Definition ULInt32 := FormatField LittleEndian 4.
Definition UBInt32 := FormatField BigEndian 4.
Definition UNInt32 := FormatField NativeEndian 4.

(** *** [BitField]: an integer as a string of one-bit bytes

    [BitField(name, length)] is [BitIntegerAdapter(Field(name, length))]:
    the field reads [length] bytes of the stream it is given and each of
    them stands for one bit.  The module uses it directly on the byte
    stream (there is no enclosing [BitStruct]). *)

Definition bit_byte (z : Z) : byte := if z =? 0 then x00 else x01.

(** The [while number and i >= 0] loop of [int_to_bin]: [todo] slots are
    still to fill, from the right; [acc] holds the slots already written.
    When [number] runs out the remaining slots keep their initial zero. *)
Fixpoint int_to_bin_loop (todo : nat) (number : Z) (acc : list byte) : list byte :=
  match todo with
  | O => acc
  | S k =>
      if number =? 0
      then repeat x00 (S k) ++ acc
      else int_to_bin_loop k (Z.shiftr number 1)
             (bit_byte (Z.land number 1) :: acc)
  end.

Definition int_to_bin (number : Z) (width : nat) : list byte :=
  let number := if number <? 0 then number + Z.shiftl 1 (Z.of_nat width) else number in
  int_to_bin_loop width number [].

(** [_bit_values]: the bytes that stand for a bit. *)
Definition _bit_values (b : byte) : option Z :=
  match b with
  | x00 => Some 0
  | x01 => Some 1
  | x30 => Some 0
  | x31 => Some 1
  | _ => None
  end.

(** [bin_to_int] (unsigned); a byte that is no bit is a [KeyError]. *)
Fixpoint bin_to_int_from (number : Z) (bits : list byte) : result Z :=
  match bits with
  | [] => Ok number
  | b :: rest =>
      match _bit_values b with
      | Some v => bin_to_int_from (Z.lor (Z.shiftl number 1) v) rest
      | None => Raise KeyError
      end
  end.

Definition bin_to_int (bits : list byte) : result Z := bin_to_int_from 0 bits.

(** [swap_bytes]: the groups of [bytesize] entries in reverse order. *)
Fixpoint chunks (fuel : nat) (bytesize : nat) (bits : list byte) : list (list byte) :=
  match fuel with
  | O => []
  | S k =>
      match bits with
      | [] => []
      | _ => firstn bytesize bits :: chunks k bytesize (skipn bytesize bits)
      end
  end.

Definition swap_bytes (bits : list byte) : list byte :=
  List.concat (rev (chunks (List.length bits) 8 bits)).

Definition BitField (nm : string) (length : nat) (swapped : bool) : Construct Z :=
  mkConstruct nm
    (fun stream =>
       match _read_stream length stream with
       | Ok (data, rest) =>
           let obj := if swapped then swap_bytes data else data in
           match bin_to_int obj with
           | Ok v => Ok (v, rest)
           | Raise err => Raise err
           end
       | Raise err => Raise err
       end)
    (fun obj =>
       if obj <? 0
       then Raise BitIntegerError
       else
         let obj2 := int_to_bin obj length in
         let obj2 := if swapped then swap_bytes obj2 else obj2 in
         (* Field._build: the data must have the field's length *)
         if (List.length obj2 =? length)%nat then Ok obj2 else Raise FieldError).

(** *** Python dictionaries, as far as [Enum] needs them *)

Section Dict.
Context {K V : Type} (eqb : K -> K -> bool).

Fixpoint dict_set (k : K) (v : V) (d : list (K * V)) : list (K * V) :=
  match d with
  | [] => [(k, v)]
  | (k', v') :: rest =>
      if eqb k' k then (k', v) :: rest else (k', v') :: dict_set k v rest
  end.

Fixpoint dict_get (k : K) (d : list (K * V)) : option V :=
  match d with
  | [] => None
  | (k', v') :: rest => if eqb k' k then Some v' else dict_get k rest
  end.

(** [dict(items)]: a later item replaces an earlier one with the same key. *)
Definition dict_of_items (items : list (K * V)) : list (K * V) :=
  fold_left (fun d kv => dict_set (fst kv) (snd kv) d) items [].

End Dict.

(** *** [Enum]: [SymmetricMapping] / [MappingAdapter] *)

Inductive enum_default : Type :=
| NotImplemented
| Pass.

(** [MappingAdapter._encode] and [._decode] with the same default on both
    sides; a missing key is a [KeyError], caught on the spot. *)
Definition mapping_encode (encoding : list (string * Z)) (encdefault : enum_default)
  (obj : code) : result code :=
  let hit := match obj with
             | Sym s => dict_get String.eqb s encoding
             | Num _ => None
             end in
  match hit with
  | Some v => Ok (Num v)
  | None =>
      match encdefault with
      | NotImplemented => Raise MappingError
      | Pass => Ok obj
      end
  end.

Definition mapping_decode (decoding : list (Z * string)) (decdefault : enum_default)
  (obj : Z) : result code :=
  match dict_get Z.eqb obj decoding with
  | Some s => Ok (Sym s)
  | None =>
      match decdefault with
      | NotImplemented => Raise MappingError
      | Pass => Ok (Num obj)
      end
  end.

(** What the integer subconstruct makes of the adapter's output: an
    integer is packed, a [str] makes [struct.pack] fail, which
    [FormatField] reports as [FieldError]. *)
Definition build_encoded (subcon : Construct Z) (obj : code) : result (list byte) :=
  match obj with
  | Num z => _build subcon z
  | Sym _ => Raise FieldError
  end.

Definition Enum (subcon : Construct Z) (_default_ : enum_default)
  (kw : list (string * Z)) : Construct code :=
  let mapping := dict_of_items String.eqb kw in
  let reversed_mapping :=
    dict_of_items Z.eqb (map (fun kv => (snd kv, fst kv)) mapping) in
  mkConstruct (name subcon)
    (fun stream =>
       try! (obj, rest) := _parse subcon stream in
       try! sym := mapping_decode reversed_mapping _default_ obj in
       Ok (sym, rest))
    (fun obj =>
       try! encoded := mapping_encode mapping _default_ obj in
       build_encoded subcon encoded).

(** *** [Array]: [MetaArray] with a count *)

(** The exceptions that derive from [ConstructError]. *)
Definition is_ConstructError (e : exn) : bool :=
  match e with
  | FieldError | ArrayError _ _ | MappingError | BitIntegerError => true
  | _ => false
  end.

Section MetaArray.
Context {A : Type} (subcon : Construct A).

(** [c] elements are parsed already, [todo] are still to come. *)
Fixpoint array_parse (count : Z) (c : Z) (todo : nat) (stream : list byte)
  : result (list A * list byte) :=
  match todo with
  | O => Ok ([], stream)
  | S k =>
      match _parse subcon stream with
      | Ok (x, rest) =>
          try! (xs, rest') := array_parse count (c + 1) k rest in
          Ok (x :: xs, rest')
      | Raise e =>
          if is_ConstructError e then Raise (ArrayError count c) else Raise e
      end
  end.

Fixpoint array_build (obj : list A) : result (list byte) :=
  match obj with
  | [] => Ok []
  | x :: xs =>
      try! b := _build subcon x in
      try! bs := array_build xs in
      Ok (b ++ bs)
  end.

Definition MetaArray (count : Z) : Construct (list A) :=
  mkConstruct (name subcon)
    (fun stream => array_parse count 0 (Z.to_nat count) stream)
    (fun obj =>
       if negb (Z.of_nat (List.length obj) =? count)
       then Raise (ArrayError count (Z.of_nat (List.length obj)))
       else array_build obj).

End MetaArray.

(** *** [Struct] of a code, two identifiers and a parameter array *)

Definition FrameStruct (nm : string) (c_code : Construct code)
  (c_session c_transaction : Construct Z) (c_parameters : Construct (list Z))
  : Construct Container :=
  mkConstruct nm
    (fun stream =>
       try! (c, s1) := _parse c_code stream in
       try! (sid, s2) := _parse c_session s1 in
       try! (tid, s3) := _parse c_transaction s2 in
       try! (ps, s4) := _parse c_parameters s3 in
       Ok (mkContainer (name c_code) c sid tid ps, s4))
    (fun obj =>
       if negb (String.eqb (code_key obj) (name c_code))
       then Raise (AttributeError (name c_code))
       else
         try! b1 := _build c_code (code_value obj) in
         try! b2 := _build c_session (SessionID_ obj) in
         try! b3 := _build c_transaction (TransactionID_ obj) in
         try! b4 := _build c_parameters (Parameter_ obj) in
         Ok (b1 ++ b2 ++ b3 ++ b4)).

(** *** [PascalString] with [encoding='utf16']

    A Python [str] is a list of code points.  The [utf16] codec writes a
    byte-order mark and then host-order units; reading, it honours a mark
    and otherwise assumes host order. *)

Definition text : Type := list Z.

Inductive encoding : Type :=
| utf16.

Definition unit_bytes (little : bool) (u : Z) : list byte :=
  let lo := byte_of_Z (u mod 256) in
  let hi := byte_of_Z (u / 256) in
  if little then [lo; hi] else [hi; lo].

Definition unit_value (little : bool) (b1 b2 : byte) : Z :=
  if little
  then Z_of_byte b1 + 256 * Z_of_byte b2
  else Z_of_byte b2 + 256 * Z_of_byte b1.

Definition is_high_surrogate (u : Z) : bool := (0xD800 <=? u) && (u <=? 0xDBFF).
Definition is_low_surrogate (u : Z) : bool := (0xDC00 <=? u) && (u <=? 0xDFFF).

Definition utf16_encode_char (cp : Z) : result (list Z) :=
  if (cp <? 0) || (0x10FFFF <? cp) then Raise UnicodeEncodeError
  else if is_high_surrogate cp || is_low_surrogate cp then Raise UnicodeEncodeError
  else if cp <? 0x10000 then Ok [cp]
  else
    let v := cp - 0x10000 in
    Ok [0xD800 + Z.shiftr v 10; 0xDC00 + Z.land v 0x3FF].

Fixpoint utf16_units (s : text) : result (list Z) :=
  match s with
  | [] => Ok []
  | cp :: rest =>
      try! us := utf16_encode_char cp in
      try! more := utf16_units rest in
      Ok (us ++ more)
  end.

Definition utf16_encode (s : text) : result (list byte) :=
  try! us := utf16_units s in
  Ok (unit_bytes host_little 0xFEFF ++ flat_map (unit_bytes host_little) us).

(** Two bytes make a unit; a byte left over is "truncated data". *)
Fixpoint units_of_bytes (little : bool) (data : list byte) : result (list Z) :=
  match data with
  | [] => Ok []
  | [_] => Raise UnicodeDecodeError
  | b1 :: b2 :: rest =>
      try! us := units_of_bytes little rest in
      Ok (unit_value little b1 b2 :: us)
  end.

Fixpoint decode_units (us : list Z) : result text :=
  match us with
  | [] => Ok []
  | u :: rest =>
      if is_high_surrogate u then
        match rest with
        | v :: rest' =>
            if is_low_surrogate v then
              try! more := decode_units rest' in
              Ok (0x10000 + Z.shiftl (u - 0xD800) 10 + (v - 0xDC00) :: more)
            else Raise UnicodeDecodeError
        | [] => Raise UnicodeDecodeError
        end
      else if is_low_surrogate u then Raise UnicodeDecodeError
      else
        try! more := decode_units rest in
        Ok (u :: more)
  end.

Definition utf16_decode (data : list byte) : result text :=
  let '(little, body) :=
    match data with
    | xff :: xfe :: rest => (true, rest)
    | xfe :: xff :: rest => (false, rest)
    | _ => (host_little, data)
    end in
  try! us := units_of_bytes little body in
  decode_units us.

(** [StringAdapter(LengthValueAdapter(Sequence(name, length_field,
    Field("data", lambda ctx: ctx[length_field.name]))), encoding)]: the
    data field is as many BYTES long as the length field says. *)
Definition PascalString (nm : string) (length_field : Construct Z) (enc : encoding)
  : Construct text :=
  mkConstruct nm
    (fun stream =>
       try! (len, s1) := _parse length_field stream in
       try! (data, s2) := _read_stream (Z.to_nat len) s1 in
       try! obj := match enc with utf16 => utf16_decode data end in
       Ok (obj, s2))
    (fun obj =>
       try! data := match enc with utf16 => utf16_encode obj end in
       try! b1 := _build length_field (Z.of_nat (List.length data)) in
       Ok (b1 ++ data)).

(** *** [Struct(name, Length('length'), Array(lambda ctx: ctx.length, element))] *)

Record ArrayContainer (A : Type) : Type := mkArray {
  length_ : Z;
  elements : list A
}.
Arguments mkArray {A} length_ elements.
Arguments length_ {A} a.
Arguments elements {A} a.

Definition CountedStruct {A} (nm : string) (length_field : Construct Z)
  (element : Construct A) : Construct (ArrayContainer A) :=
  mkConstruct nm
    (fun stream =>
       try! (len, s1) := _parse length_field stream in
       try! (xs, s2) := _parse (MetaArray element len) s1 in
       Ok (mkArray len xs, s2))
    (fun obj =>
       try! b1 := _build length_field (length_ obj) in
       try! b2 := _build (MetaArray element (length_ obj)) (elements obj) in
       Ok (b1 ++ b2)).

(** *** The [DeviceInfo] container and its thirteen-field [Struct] *)

Record DeviceInfoContainer : Type := mkDeviceInfo {
  StandardVersion : Z;
  VendorExtensionID : Z;
  VendorExtensionVersion : Z;
  VendorExtensionDesc : text;
  FunctionalMode : Z;
  OperationSupported : ArrayContainer code;
  EventsSupported : ArrayContainer code;
  DevicePropertiesSupported : ArrayContainer code;
  CaptureFormats : ArrayContainer code;
  Manufacturer : text;
  Model : text;
  DeviceVersion : text;
  SerialNumber : text
}.

Definition DeviceInfoStruct (nm : string)
  (c1 c2 c3 : Construct Z) (c4 : Construct text) (c5 : Construct Z)
  (c6 c7 c8 c9 : Construct (ArrayContainer code))
  (c10 c11 c12 c13 : Construct text) : Construct DeviceInfoContainer :=
  mkConstruct nm
    (fun stream =>
       try! (v1, s) := _parse c1 stream in
       try! (v2, s) := _parse c2 s in
       try! (v3, s) := _parse c3 s in
       try! (v4, s) := _parse c4 s in
       try! (v5, s) := _parse c5 s in
       try! (v6, s) := _parse c6 s in
       try! (v7, s) := _parse c7 s in
       try! (v8, s) := _parse c8 s in
       try! (v9, s) := _parse c9 s in
       try! (v10, s) := _parse c10 s in
       try! (v11, s) := _parse c11 s in
       try! (v12, s) := _parse c12 s in
       try! (v13, s) := _parse c13 s in
       Ok (mkDeviceInfo v1 v2 v3 v4 v5 v6 v7 v8 v9 v10 v11 v12 v13, s))
    (fun obj =>
       try! b1 := _build c1 (StandardVersion obj) in
       try! b2 := _build c2 (VendorExtensionID obj) in
       try! b3 := _build c3 (VendorExtensionVersion obj) in
       try! b4 := _build c4 (VendorExtensionDesc obj) in
       try! b5 := _build c5 (FunctionalMode obj) in
       try! b6 := _build c6 (OperationSupported obj) in
       try! b7 := _build c7 (EventsSupported obj) in
       try! b8 := _build c8 (DevicePropertiesSupported obj) in
       try! b9 := _build c9 (CaptureFormats obj) in
       try! b10 := _build c10 (Manufacturer obj) in
       try! b11 := _build c11 (Model obj) in
       try! b12 := _build c12 (DeviceVersion obj) in
       try! b13 := _build c13 (SerialNumber obj) in
       Ok (b1 ++ b2 ++ b3 ++ b4 ++ b5 ++ b6 ++ b7 ++ b8 ++ b9 ++ b10 ++ b11
              ++ b12 ++ b13)).

End WithHost.

Arguments mkConstruct {A} name _parse _build.
Arguments name {A} c.
Arguments _parse {A} c stream.
Arguments _build {A} c obj.
Arguments mkArray {A} length_ elements.
Arguments length_ {A} a.
Arguments elements {A} a.

(** A value that a construct writes and reads back, whatever follows it
    in the stream. *)
Definition faithful {A} (c : Construct A) (x : A) : Prop :=
  exists bs, _build c x = Ok bs /\
             forall rest, _parse c (bs ++ rest) = Ok (x, rest).

End Codec.

(** ** [ptp.py]: the protocol's fields, code tables, frames and datasets *)

Module PTP.
Section WithHost.

Variable host_little : bool.

Local Abbreviation Construct := Codec.Construct.
Local Abbreviation ULInt8 := (Codec.ULInt8 host_little).
Local Abbreviation UBInt8 := (Codec.UBInt8 host_little).
Local Abbreviation UNInt8 := (Codec.UNInt8 host_little).
Local Abbreviation ULInt16 := (Codec.ULInt16 host_little).
Local Abbreviation UBInt16 := (Codec.UBInt16 host_little).
Local Abbreviation UNInt16 := (Codec.UNInt16 host_little).
Local Abbreviation ULInt32 := (Codec.ULInt32 host_little).
Local Abbreviation UBInt32 := (Codec.UBInt32 host_little).
Local Abbreviation UNInt32 := (Codec.UNInt32 host_little).

(** Return little, native or big endian. *)
Definition switch_endian {A} (le be : bool) (l b n : A) : result A :=
  if negb (Bool.eqb be le) then Ok (if le then l else b)
  else if le then Raise (PTPError "Cannot be both little and big endian...")
  else Ok n.

Definition SessionID (_le_ _be_ : bool) : result (Construct Z) :=
  try! subcon := switch_endian _le_ _be_ ULInt32 UBInt32 UNInt32 in
  Ok (subcon "SessionID").

Definition TransactionID (_le_ _be_ : bool) : result (Construct Z) :=
  try! subcon := switch_endian _le_ _be_ ULInt32 UBInt32 UNInt32 in
  Ok (subcon "TransactionID").

(** [Parameter] in the source. *)
Definition Parameter_field (_le_ _be_ : bool) : result (Construct Z) :=
  switch_endian _le_ _be_
    (Codec.BitField "Parameter" 32 true)
    (Codec.BitField "Parameter" 32 false)
    (Codec.BitField "Parameter" 32 false).

(** A call [f(a=1, b=2, **vendor)]: a keyword given twice is a
    [TypeError]; otherwise the keywords in order. *)
Definition keywords (explicit vendor : list (string * Z))
  : result (list (string * Z)) :=
  if existsb (fun kv =>
                String.eqb (fst kv) "_default_"
                || existsb (fun kv' => String.eqb (fst kv') (fst kv)) explicit)
       vendor
  then Raise TypeError
  else Ok (explicit ++ vendor).

Definition OperationCode_entries : list (string * Z) :=
  [
    ("Undefined", 0x1000);
    ("GetDeviceInfo", 0x1001);
    ("OpenSession", 0x1002);
    ("CloseSession", 0x1003);
    ("GetStorageIDs", 0x1004);
    ("GetStorageInfo", 0x1005);
    ("GetNumObjects", 0x1006);
    ("GetObjectHandles", 0x1007);
    ("GetObjectInfo", 0x1008);
    ("GetObject", 0x1009);
    ("GetThumb", 0x100A);
    ("DeleteObject", 0x100B);
    ("SendObjectInfo", 0x100C);
    ("SendObject", 0x100D);
    ("InitiateCapture", 0x100E);
    ("FormatStore", 0x100F);
    ("ResetDevice", 0x1010);
    ("SelfTest", 0x1011);
    ("SetObjectProtection", 0x1012);
    ("PowerDown", 0x1013);
    ("GetDevicePropDesc", 0x1014);
    ("GetDevicePropValue", 0x1015);
    ("SetDevicePropValue", 0x1016);
    ("ResetDevicePropValue", 0x1017);
    ("TerminateOpenCapture", 0x1018);
    ("MoveObject", 0x1019);
    ("CopyObject", 0x101A);
    ("GetPartialObject", 0x101B);
    ("InitiateOpenCapture", 0x101C);
    ("StartEnumHandles", 0x101D);
    ("EnumHandles", 0x101E);
    ("StopEnumHandles", 0x101F);
    ("GetVendorExtensionMapss", 0x1020);
    ("GetVendorDeviceInfo", 0x1021);
    ("GetResizedImageObject", 0x1022);
    ("GetFilesystemManifest", 0x1023);
    ("GetStreamInfo", 0x1024);
    ("GetStream", 0x1025)
  ].

Definition OperationCode (_le_ _be_ : bool) (vendor : list (string * Z))
  : result (Construct code) :=
  try! subcon := switch_endian _le_ _be_ ULInt16 UBInt16 UNInt16 in
  try! kw := keywords OperationCode_entries vendor in
  Ok (Codec.Enum (subcon "OperationCode") Codec.Pass kw).

Definition ResponseCode_entries : list (string * Z) :=
  [
    ("Undefined", 0x2000);
    ("OK", 0x2001);
    ("GeneralError", 0x2002);
    ("SessionNotOpen", 0x2003);
    ("InvalidTransactionID", 0x2004);
    ("OperationNotSupported", 0x2005);
    ("ParameterNotSupported", 0x2006);
    ("IncompleteTransfer", 0x2007);
    ("InvalidStorageId", 0x2008);
    ("InvalidObjectHandle", 0x2009);
    ("DevicePropNotSupported", 0x200A);
    ("InvalidObjectFormatCode", 0x200B);
    ("StoreFull", 0x200C);
    ("ObjectWriteProtected", 0x200D);
    ("StoreReadOnly", 0x200E);
    ("AccessDenied", 0x200F);
    ("NoThumbnailPresent", 0x2010);
    ("SelfTestFailed", 0x2011);
    ("PartialDeletion", 0x2012);
    ("StoreNotAvailable", 0x2013);
    ("SpecificationByFormatUnsupported", 0x2014);
    ("NoValidObjectInfo", 0x2015);
    ("InvalidCodeFormat", 0x2016);
    ("UnknownVendorCode", 0x2017);
    ("CaptureAlreadyTerminated", 0x2018);
    ("DeviceBusy", 0x2019);
    ("InvalidParentObject", 0x201A);
    ("InvalidDevicePropFormat", 0x201B);
    ("InvalidDevicePropValue", 0x201C);
    ("InvalidParameter", 0x201D);
    ("SessionAlreadyOpened", 0x201E);
    ("TransactionCanceled", 0x201F);
    ("SpecificationOfDestinationUnsupported", 0x2020);
    ("InvalidEnumHandle", 0x2021);
    ("NoStreamEnabled", 0x2022);
    ("InvalidDataset", 0x2023)
  ].

Definition ResponseCode (_le_ _be_ : bool) (vendor : list (string * Z))
  : result (Construct code) :=
  try! subcon := switch_endian _le_ _be_ ULInt16 UBInt16 UNInt16 in
  try! kw := keywords ResponseCode_entries vendor in
  Ok (Codec.Enum (subcon "ResponseCode") Codec.Pass kw).

Definition EventCode_entries : list (string * Z) :=
  [
    ("Undefined", 0x4000);
    ("CancelTransaction", 0x4001);
    ("ObjectAdded", 0x4002);
    ("ObjectRemoved", 0x4003);
    ("StoreAdded", 0x4004);
    ("StoreRemoved", 0x4005);
    ("DevicePropChanged", 0x4006);
    ("ObjectInfoChanged", 0x4007);
    ("DeviceInfoChanged", 0x4008);
    ("RequestObjectTransfer", 0x4009);
    ("StoreFull", 0x400A);
    ("DeviceReset", 0x400B);
    ("StorageInfoChanged", 0x400C);
    ("CaptureComplete", 0x400D);
    ("UnreportedStatus", 0x400E)
  ].

Definition EventCode (_le_ _be_ : bool) (vendor : list (string * Z))
  : result (Construct code) :=
  try! subcon := switch_endian _le_ _be_ ULInt16 UBInt16 UNInt16 in
  try! kw := keywords EventCode_entries vendor in
  Ok (Codec.Enum (subcon "EventCode") Codec.Pass kw).

Definition Event (_le_ _be_ : bool) : result (Construct Container) :=
  try! c := EventCode _le_ _be_ [] in
  try! s := SessionID _le_ _be_ in
  try! t := TransactionID _le_ _be_ in
  try! p := Parameter_field _le_ _be_ in
  Ok (Codec.FrameStruct "Event" c s t (Codec.MetaArray p 3)).

Definition Response (_le_ _be_ : bool) : result (Construct Container) :=
  try! c := ResponseCode _le_ _be_ [] in
  try! s := SessionID _le_ _be_ in
  try! t := TransactionID _le_ _be_ in
  try! p := Parameter_field _le_ _be_ in
  Ok (Codec.FrameStruct "Response" c s t (Codec.MetaArray p 5)).

Definition Operation (_le_ _be_ : bool) : result (Construct Container) :=
  try! c := OperationCode _le_ _be_ [] in
  try! s := SessionID _le_ _be_ in
  try! t := TransactionID _le_ _be_ in
  try! p := Parameter_field _le_ _be_ in
  Ok (Codec.FrameStruct "Operation" c s t (Codec.MetaArray p 5)).

(** *** PTP datasets for specific operations *)

Definition PropertyCode_entries : list (string * Z) :=
  [
    ("Undefined", 0x5000);
    ("BatteryLevel", 0x5001);
    ("FunctionalMode", 0x5002);
    ("ImageSize", 0x5003);
    ("CompressionSetting", 0x5004);
    ("WhiteBalance", 0x5005);
    ("RGBGain", 0x5006);
    ("FNumber", 0x5007);
    ("FocalLength", 0x5008);
    ("FocusDistance", 0x5009);
    ("FocusMode", 0x500A);
    ("ExposureMeteringMode", 0x500B);
    ("FlashMode", 0x500C);
    ("ExposureTime", 0x500D);
    ("ExposureProgramMode", 0x500E);
    ("ExposureIndex", 0x500F);
    ("ExposureBiasCompensation", 0x5010);
    ("DateTime", 0x5011);
    ("CaptureDelay", 0x5012);
    ("StillCaptureMode", 0x5013);
    ("Contrast", 0x5014);
    ("Sharpness", 0x5015);
    ("DigitalZoom", 0x5016);
    ("EffectMode", 0x5017);
    ("BurstNumber", 0x5018);
    ("BurstInterval", 0x5019);
    ("TimelapseNumber", 0x501A);
    ("TimelapseInterval", 0x501B);
    ("FocusMeteringMode", 0x501C);
    ("UploadURL", 0x501D);
    ("Artist", 0x501E);
    ("CopyrightInfo", 0x501F)
  ].

Definition PropertyCode (_le_ _be_ : bool) (vendor : list (string * Z))
  : result (Construct code) :=
  try! subcon := switch_endian _le_ _be_ ULInt16 UBInt16 UNInt16 in
  try! kw := keywords PropertyCode_entries vendor in
  Ok (Codec.Enum (subcon "PropertyCode") Codec.Pass kw).

(** Returns a PTP String constructor. *)
Definition PTPString (nm : string) (_le_ _be_ : bool)
  : result (Construct Codec.text) :=
  try! length_field := switch_endian _le_ _be_ ULInt8 UBInt8 UNInt8 in
  Ok (Codec.PascalString host_little nm (length_field "length") Codec.utf16).

Definition PTPArray {A} (nm : string) (element : Construct A) (_le_ _be_ : bool)
  : result (Construct (Codec.ArrayContainer A)) :=
  try! Length := switch_endian _le_ _be_ ULInt32 UBInt32 UNInt32 in
  Ok (Codec.CountedStruct nm (Length "length") element).

Definition ObjectFormatCode_entries : list (string * Z) :=
  [
    ("Undefined", 0x3000);
    ("Association", 0x3001);
    ("Script", 0x3002);
    ("Executable", 0x3003);
    ("Text", 0x3004);
    ("HTML", 0x3005);
    ("DPOF", 0x3006);
    ("AIFF", 0x3007);
    ("WAV", 0x3008);
    ("MP3", 0x3009);
    ("AVI", 0x300A);
    ("MPEG", 0x300B);
    ("ASF", 0x300C);
    ("QT", 0x300D);
    ("EXIF_JPEG", 0x3801);
    ("TIFF_EP", 0x3802);
    ("FlashPix", 0x3803);
    ("BMP", 0x3804);
    ("CIFF", 0x3805);
    ("GIF", 0x3807);
    ("JFIF", 0x3808);
    ("PCD", 0x3809);
    ("PICT", 0x380A);
    ("PNG", 0x380B);
    ("TIFF", 0x380D);
    ("TIFF_IT", 0x380E);
    ("JP2", 0x380F);
    ("JPX", 0x3810);
    ("DNG", 0x3811)
  ].

Definition ObjectFormatCode (_le_ _be_ : bool) (vendor : list (string * Z))
  : result (Construct code) :=
  try! subcon := switch_endian _le_ _be_ ULInt16 UBInt16 UNInt16 in
  try! kw := keywords ObjectFormatCode_entries vendor in
  Ok (Codec.Enum (subcon "ObjectFormatCode") Codec.Pass kw).

(** [DeviceInfo]: the flags reach the four element codecs only; the
    integers are [ULInt*] and the strings and array lengths are built with
    the default flags. *)
Definition DeviceInfo (_le_ _be_ : bool)
  : result (Construct Codec.DeviceInfoContainer) :=
  let c1 := ULInt16 "StandardVersion" in
  let c2 := ULInt32 "VendorExtensionID" in
  let c3 := ULInt16 "VendorExtensionVersion" in
  try! c4 := PTPString "VendorExtensionDesc" false false in
  let c5 := ULInt16 "FunctionalMode" in
  try! e6 := OperationCode _le_ _be_ [] in
  try! c6 := PTPArray "OperationSupported" e6 false false in
  try! e7 := EventCode _le_ _be_ [] in
  try! c7 := PTPArray "EventsSupported" e7 false false in
  try! e8 := PropertyCode _le_ _be_ [] in
  try! c8 := PTPArray "DevicePropertiesSupported" e8 false false in
  try! e9 := ObjectFormatCode _le_ _be_ [] in
  try! c9 := PTPArray "CaptureFormats" e9 false false in
  try! c10 := PTPString "Manufacturer" false false in
  try! c11 := PTPString "Model" false false in
  try! c12 := PTPString "DeviceVersion" false false in
  try! c13 := PTPString "SerialNumber" false false in
  Ok (Codec.DeviceInfoStruct "DeviceInfo" c1 c2 c3 c4 c5 c6 c7 c8 c9 c10 c11 c12 c13).

(** What [PTPDevice._set_endian] stores on the device. *)
Record Codecs : Type := mkCodecs {
  _DeviceInfo : Construct Codec.DeviceInfoContainer;
  _SessionID : Construct Z;
  _TransactionID : Construct Z;
  _Parameter : Construct Z;
  _OperationCode : Construct code;
  _ResponseCode : Construct code;
  _EventCode : Construct code;
  _Event : Construct Container;
  _Response : Construct Container;
  _Operation : Construct Container;
  _PropertyCode : Construct code;
  _ObjectFormatCode : Construct code
}.

Definition _set_endian (little big : bool) : result Codecs :=
  try! c1 := DeviceInfo little big in
  try! c2 := SessionID little big in
  try! c3 := TransactionID little big in
  try! c4 := Parameter_field little big in
  try! c5 := OperationCode little big [] in
  try! c6 := ResponseCode little big [] in
  try! c7 := EventCode little big [] in
  try! c8 := Event little big in
  try! c9 := Response little big in
  try! c10 := Operation little big in
  try! c11 := PropertyCode little big [] in
  try! c12 := ObjectFormatCode little big [] in
  Ok (mkCodecs c1 c2 c3 c4 c5 c6 c7 c8 c9 c10 c11 c12).

(** *** Vocabulary for the statements below *)

(** The three frame constructors under one name. *)
Inductive frame_kind : Type :=
| OperationFrame
| ResponseFrame
| EventFrame.

Definition frame_codec (k : frame_kind) (_le_ _be_ : bool)
  : result (Construct Container) :=
  match k with
  | OperationFrame => Operation _le_ _be_
  | ResponseFrame => Response _le_ _be_
  | EventFrame => Event _le_ _be_
  end.

Definition frame_key (k : frame_kind) : string :=
  match k with
  | OperationFrame => "OperationCode"
  | ResponseFrame => "ResponseCode"
  | EventFrame => "EventCode"
  end.

Definition frame_entries (k : frame_kind) : list (string * Z) :=
  match k with
  | OperationFrame => OperationCode_entries
  | ResponseFrame => ResponseCode_entries
  | EventFrame => EventCode_entries
  end.

Definition frame_count (k : frame_kind) : Z :=
  match k with
  | OperationFrame | ResponseFrame => 5
  | EventFrame => 3
  end.

(** The five code tables under one name. *)
Inductive code_table : Type :=
| OperationTable
| ResponseTable
| EventTable
| PropertyTable
| ObjectFormatTable.

Definition table_codec (t : code_table) (_le_ _be_ : bool)
  (vendor : list (string * Z)) : result (Construct code) :=
  match t with
  | OperationTable => OperationCode _le_ _be_ vendor
  | ResponseTable => ResponseCode _le_ _be_ vendor
  | EventTable => EventCode _le_ _be_ vendor
  | PropertyTable => PropertyCode _le_ _be_ vendor
  | ObjectFormatTable => ObjectFormatCode _le_ _be_ vendor
  end.

Definition table_entries (t : code_table) : list (string * Z) :=
  match t with
  | OperationTable => OperationCode_entries
  | ResponseTable => ResponseCode_entries
  | EventTable => EventCode_entries
  | PropertyTable => PropertyCode_entries
  | ObjectFormatTable => ObjectFormatCode_entries
  end.

(** The byte order a pair of flags selects (when it selects one). *)
Definition selected (_le_ _be_ : bool) : Codec.endianity :=
  if _le_ then Codec.LittleEndian
  else if _be_ then Codec.BigEndian
  else Codec.NativeEndian.

Definition u16 (z : Z) : bool := (0 <=? z) && (z <? 0x10000).
Definition u32 (z : Z) : bool := (0 <=? z) && (z <? 0x100000000).

Definition known_name (kw : list (string * Z)) (s : string) : bool :=
  existsb (fun kv => String.eqb (fst kv) s) kw.

Definition known_value (kw : list (string * Z)) (n : Z) : bool :=
  existsb (fun kv => Z.eqb (snd kv) n) kw.

(** A code as a parser hands it out: the name of an entry, or a 16-bit
    number that no entry stands for. *)
Definition wf_code (kw : list (string * Z)) (c : code) : bool :=
  match c with
  | Sym s => known_name kw s
  | Num n => u16 n && negb (known_value kw n)
  end.

(** The header of a frame: its code under the right key, and two 32-bit
    identifiers. *)
Definition wf_header (k : frame_kind) (f : Container) : bool :=
  String.eqb (code_key f) (frame_key k)
  && wf_code (frame_entries k) (code_value f)
  && u32 (SessionID_ f)
  && u32 (TransactionID_ f).

(** A well-formed frame: a header as above and the kind's number of
    32-bit parameters. *)
Definition wf_frame (k : frame_kind) (f : Container) : bool :=
  wf_header k f
  && (Z.of_nat (List.length (Parameter_ f)) =? frame_count k)
  && forallb u32 (Parameter_ f).

(** An entry whose name encodes to a 16-bit number that decodes to the
    same name; and a table all of whose entries do. *)
Definition entry_roundtrips (kw : list (string * Z)) (s : string) : bool :=
  let mapping := Codec.dict_of_items String.eqb kw in
  let reversed_mapping :=
    Codec.dict_of_items Z.eqb (map (fun kv => (snd kv, fst kv)) mapping) in
  match Codec.dict_get String.eqb s mapping with
  | Some v =>
      u16 v
      && match Codec.dict_get Z.eqb v reversed_mapping with
         | Some s' => String.eqb s' s
         | None => false
         end
  | None => false
  end.

Definition table_roundtrips (kw : list (string * Z)) : bool :=
  forallb (fun kv => entry_roundtrips kw (fst kv)) kw.

(** A table all of whose numbers are keys of the reversed mapping. *)
Definition table_covered (kw : list (string * Z)) : bool :=
  let mapping := Codec.dict_of_items String.eqb kw in
  let reversed_mapping :=
    Codec.dict_of_items Z.eqb (map (fun kv => (snd kv, fst kv)) mapping) in
  forallb (fun kv =>
             match Codec.dict_get Z.eqb (snd kv) reversed_mapping with
             | Some _ => true
             | None => false
             end) kw.

(** The frame that [open_session] sends first, and two frames with the
    wrong number of parameters, for the examples. *)
Definition open_frame : Container :=
  mkContainer "OperationCode" (Sym "OpenSession") 0 0 [1; 0; 0; 0; 0].

Definition short_frame : Container :=
  mkContainer "OperationCode" (Sym "GetObject") 1 1 [7].

Definition padded_frame : Container :=
  mkContainer "OperationCode" (Sym "GetObject") 1 1 [7; 0; 0; 0; 0].

Definition long_event : Container :=
  mkContainer "EventCode" (Sym "ObjectAdded") 1 1 [7; 0; 0; 0].

(** A small device description, for the examples. *)
Definition sample_info : Codec.DeviceInfoContainer :=
  Codec.mkDeviceInfo 100 6 100 [] 0
    (Codec.mkArray 1 [Sym "GetDeviceInfo"])
    (Codec.mkArray 0 []) (Codec.mkArray 0 []) (Codec.mkArray 0 [])
    [] [] [] [].

End WithHost.
End PTP.

(** ** [fujix100.py]: [FujiX100.session], and sessions in a row *)

Module FujiX100.
Section WithTransport.

Variable T : Type.
Variable Resp : Type.
Variable mesg : Container -> Device.M T Resp.

(** A generator function with a single [yield], as
    [contextlib.contextmanager] drives it: the run up to the [yield], and
    the run from the [yield] on. *)
Record generator : Type := mkGenerator {
  gen_start : Device.PTPDevice T ->
              list Device.action * Device.gen_step * Device.PTPDevice T;
  gen_resume : Device.resume -> Device.PTPDevice T ->
               list Device.action * Device.gen_step * Device.PTPDevice T
}.

(** [GeneratorContextManager.__enter__]. *)
Definition enter (g : generator) (d : Device.PTPDevice T)
  : list Device.action * result unit * Device.PTPDevice T :=
  let '(t, st, d') := gen_start g d in
  (t,
   match st with
   | Device.Yielded => Ok tt
   | Device.Stopped | Device.Rethrown =>
       Raise (RuntimeError "generator didn't yield")
   | Device.Threw e => Raise e
   end,
   d').

(** [GeneratorContextManager.__exit__]. *)
Definition exit (g : generator) (c : Device.completion) (d : Device.PTPDevice T)
  : list Device.action * result bool * Device.PTPDevice T :=
  match c with
  | Device.Raised e =>
      let '(t, st, d') := gen_resume g (Device.Throw e) d in
      (t,
       match st with
       | Device.Yielded =>
           Raise (RuntimeError "generator didn't stop after throw()")
       | Device.Stopped => Ok true
       | Device.Rethrown => Ok false
       | Device.Threw e' => Raise e'
       end,
       d')
  | Device.Normal | Device.EarlyReturn _ =>
      let '(t, st, d') := gen_resume g Device.Next d in
      (t,
       match st with
       | Device.Yielded => Raise (RuntimeError "generator didn't stop")
       | Device.Stopped => Ok false
       | Device.Rethrown => Ok false
       | Device.Threw e' => Raise e'
       end,
       d')
  end.

(** [with g(): body]. *)
Definition with_generator (g : generator)
  (body : Device.PTPDevice T -> Device.completion * Device.PTPDevice T)
  (d : Device.PTPDevice T)
  : list Device.action * Device.completion * Device.PTPDevice T :=
  let '(t1, r, d1) := enter g d in
  match r with
  | Raise e => (t1, Device.Raised e, d1)
  | Ok _ =>
      let '(c, d2) := body d1 in
      let '(t2, x, d3) := exit g c d2 in
      (t1 ++ Device.RunBody :: t2,
       match x with
       | Raise e' => Device.Raised e'
       | Ok true => Device.Normal
       | Ok false => c
       end,
       d3)
  end.

(** [FujiX100.session]: [with super(FujiX100, self).session(): yield],
    where the next [session] in the method resolution order is
    [PTPDevice.session]. *)
Definition session : generator :=
  mkGenerator
    (fun d =>
       let '(t, r, d1) := Device.cm_enter mesg d in
       (t,
        match r with
        | Ok _ => Device.Yielded
        | Raise e => Device.Threw e
        end,
        d1))
    (fun r d =>
       match r with
       | Device.Next =>
           let '(t, x, d') := Device.cm_exit mesg Device.Normal d in
           (t,
            match x with
            | Ok _ => Device.Stopped
            | Raise e' => Device.Threw e'
            end,
            d')
       | Device.Throw e =>
           let '(t, x, d') := Device.cm_exit mesg (Device.Raised e) d in
           (t,
            match x with
            | Ok true => Device.Stopped
            | Ok false => Device.Rethrown
            | Raise e' => Device.Threw e'
            end,
            d')
       end).

End WithTransport.

Arguments mkGenerator {T} gen_start gen_resume.
Arguments gen_start {T} g d.
Arguments gen_resume {T} g r d.
Arguments enter {T} g d.
Arguments exit {T} g c d.
Arguments with_generator {T} g body d.
Arguments session {T Resp} mesg.

(** [n] times [with ptp.session(): pass] on the recording transport. *)
Fixpoint run_sessions (n : nat) (d : Device.PTPDevice (list Container))
  : Device.PTPDevice (list Container) :=
  match n with
  | O => d
  | S k =>
      snd (Device.with_session Device.recording_mesg
             (fun d' => (Device.Normal, d')) (run_sessions k d))
  end.

(** The frames of sessions number [s + 1], ..., [s + n], each an
    OpenSession announcing the session and a CloseSession inside it. *)
Fixpoint session_frames (s : Z) (n : nat) : list Container :=
  match n with
  | O => []
  | S k =>
      session_frames s k
      ++ [mkContainer "OperationCode" (Sym "OpenSession") 0 0
            [s + Z.of_nat (S k); 0; 0; 0; 0];
          mkContainer "OperationCode" (Sym "CloseSession") (s + Z.of_nat (S k)) 1
            [0; 0; 0; 0; 0]]
  end.

End FujiX100.

(** ** Vocabulary for the datasets *)

Module Wellformed.

(** A table whose dictionaries hold every entry as written: each name is
    mapped to its 16-bit number and each number back to its name. *)
Definition table_exact (kw : list (string * Z)) : bool :=
  let mapping := Codec.dict_of_items String.eqb kw in
  let reversed_mapping :=
    Codec.dict_of_items Z.eqb (map (fun kv => (snd kv, fst kv)) mapping) in
  forallb (fun kv =>
             PTP.u16 (snd kv)
             && match Codec.dict_get String.eqb (fst kv) mapping with
                | Some v => Z.eqb v (snd kv)
                | None => false
                end
             && match Codec.dict_get Z.eqb (snd kv) reversed_mapping with
                | Some s => String.eqb s (fst kv)
                | None => false
                end) kw.

(** No name occurs twice. *)
Fixpoint distinct_names (kw : list (string * Z)) : bool :=
  match kw with
  | [] => true
  | kv :: rest =>
      negb (existsb (fun kv' => String.eqb (fst kv') (fst kv)) rest)
      && distinct_names rest
  end.

(** The two wire bytes of a 16-bit number under a selection of flags. *)
Definition wire16 (host _le_ _be_ : bool) (v : Z) : list byte :=
  Codec.wire_order host (PTP.selected _le_ _be_) (Codec.le_bytes 2 v).

(** A 16-bit UTF-16 unit. *)
Definition unit_range (u : Z) : Prop := 0 <= u < 65536.

(** A code point that [str.encode('utf16')] accepts. *)
Definition scalar (cp : Z) : bool :=
  (0 <=? cp) && (cp <=? 0x10FFFF)
  && negb (Codec.is_high_surrogate cp || Codec.is_low_surrogate cp).

(** The number of UTF-16 units of a text. *)
Fixpoint unit_count (s : Codec.text) : Z :=
  match s with
  | [] => 0
  | cp :: rest => (if cp <? 0x10000 then 1 else 2) + unit_count rest
  end.

(** The number of bytes [utf16] makes of a text: the mark and the units. *)
Definition encoded_size (s : Codec.text) : Z := 2 + 2 * unit_count s.

(** A text that a PTP string construct can write: code points that can be
    encoded, and no more bytes than the length byte can count. *)
Definition wf_text (s : Codec.text) : bool :=
  forallb scalar s && (encoded_size s <=? 255).

(** An array container whose [length] is a 32-bit number, agrees with the
    number of elements, and whose elements are well-formed codes. *)
Definition wf_array (kw : list (string * Z)) (a : Codec.ArrayContainer code)
  : bool :=
  PTP.u32 (Codec.length_ a)
  && (Z.of_nat (List.length (Codec.elements a)) =? Codec.length_ a)
  && forallb (PTP.wf_code kw) (Codec.elements a).

Definition wf_info (i : Codec.DeviceInfoContainer) : bool :=
  PTP.u16 (Codec.StandardVersion i)
  && PTP.u32 (Codec.VendorExtensionID i)
  && PTP.u16 (Codec.VendorExtensionVersion i)
  && wf_text (Codec.VendorExtensionDesc i)
  && PTP.u16 (Codec.FunctionalMode i)
  && wf_array PTP.OperationCode_entries (Codec.OperationSupported i)
  && wf_array PTP.EventCode_entries (Codec.EventsSupported i)
  && wf_array PTP.PropertyCode_entries (Codec.DevicePropertiesSupported i)
  && wf_array PTP.ObjectFormatCode_entries (Codec.CaptureFormats i)
  && wf_text (Codec.Manufacturer i)
  && wf_text (Codec.Model i)
  && wf_text (Codec.DeviceVersion i)
  && wf_text (Codec.SerialNumber i).

(** A description with text in it, for the examples. *)
Definition fuji_info : Codec.DeviceInfoContainer :=
  Codec.mkDeviceInfo 100 6 100 [0x66; 0x75; 0x6A; 0x69] 0
    (Codec.mkArray 3 [Sym "GetDeviceInfo"; Sym "OpenSession"; Num 0x9001])
    (Codec.mkArray 1 [Sym "ObjectAdded"])
    (Codec.mkArray 2 [Sym "BatteryLevel"; Num 0xD001])
    (Codec.mkArray 1 [Sym "EXIF_JPEG"])
    [0x46; 0x55; 0x4A; 0x49] [0x58; 0x31; 0x30; 0x30; 0x1F4F7]
    [0x31; 0x2E; 0x30] [].

End Wellformed.

(** * Properties of the session / transaction state machine *)

Module DeviceFacts.
Section WithTransport.

Variables (T Resp : Type).
Variable mesg : Container -> Device.M T Resp.

Local Abbreviation dev := (Device.PTPDevice T).
Local Abbreviation tid := (@Device.__transaction_id T).
Local Abbreviation MAX := 0xFFFFFFFE.

Local Abbreviation issued := Device.issued.

(** One read, in closed form. *)
Lemma transaction_read (d : dev) :
  Device.__transaction d =
  (Ok (tid d),
   Device.set_transaction_id
     (if tid d + 1 >? MAX then 1 else tid d + 1) d).
Proof.
  unfold Device.__transaction, Device.bind, Device.gets, Device.modify, Device.ret.
  cbn.
  destruct (tid d + 1 >? MAX); destruct d; reflexivity.
Qed.

Lemma issued_succ (n : nat) :
  issued (S n) = if issued n + 1 >? MAX then 1 else issued n + 1.
Proof.
  unfold Device.issued. cbn [Nat.eqb].
  replace (Z.of_nat (S n) - 1) with (Z.of_nat n) by lia.
  destruct n as [|k].
  - reflexivity.
  - cbn [Nat.eqb].
    replace (Z.of_nat (S k)) with ((Z.of_nat (S k) - 1) + 1) at 1 by lia.
    set (m := Z.of_nat (S k) - 1).
    assert (Hm : 0 <= m) by lia.
    pose proof (Z.mod_pos_bound m MAX ltac:(lia)) as Hb.
    pose proof (Z.div_mod m MAX ltac:(lia)) as Hd.
    destruct (1 + m mod MAX + 1 >? MAX) eqn:E.
    + apply Z.gtb_lt in E.
      assert (Hr : m mod MAX = MAX - 1) by lia.
      assert (Hq : m + 1 = MAX * (m / MAX + 1)) by lia.
      rewrite Hq, Z.mul_comm, Z.mod_mul by lia. reflexivity.
    + assert (Hlt : m mod MAX + 1 < MAX).
      { destruct (Z.gtb_spec (1 + m mod MAX + 1) MAX); [discriminate | lia]. }
      assert (Hq : (m + 1) mod MAX = m mod MAX + 1).
      { symmetry. apply (Z.mod_unique_pos (m + 1) MAX (m / MAX)); lia. }
      rewrite Hq. lia.
Qed.

(** The counter after [n] reads of a fresh counter. *)
Lemma after_reads_tid (d : dev) (n : nat) :
  tid d = 0 -> tid (Device.after_reads n d) = issued n.
Proof.
  intros H0. induction n as [|n IH].
  - exact H0.
  - cbn [Device.after_reads]. rewrite transaction_read. cbn [snd].
    rewrite issued_succ, <- IH. reflexivity.
Qed.

Lemma nth_read_issued (d : dev) (n : nat) :
  tid d = 0 -> Device.nth_read n d = Ok (issued n).
Proof.
  intros H0. unfold Device.nth_read. rewrite transaction_read. cbn [fst].
  now rewrite after_reads_tid.
Qed.

Lemma issued_small (n : nat) : Z.of_nat n <= MAX -> issued n = Z.of_nat n.
Proof.
  intros H. unfold Device.issued. destruct n as [|k]; [reflexivity|].
  cbn [Nat.eqb]. rewrite Z.mod_small by lia. lia.
Qed.

Lemma issued_positive (n : nat) : (0 < n)%nat -> 1 <= issued n <= MAX.
Proof.
  intros H. unfold Device.issued. destruct n as [|k]; [lia|]. cbn [Nat.eqb].
  pose proof (Z.mod_pos_bound (Z.of_nat (S k) - 1) MAX ltac:(lia)). lia.
Qed.

(** C1.  Reads of the transaction-id producer on a fresh counter hand out
    0, 1, 2, ..., 0xFFFFFFFE, 1, 2, ...: read number [n] returns [n] as
    long as [n <= 0xFFFFFFFE], the read after the one that returned
    0xFFFFFFFE returns 1, 0 never comes back after the first read, and
    only the reset (assigning 0) makes the next read return 0 again. *)
Theorem transaction_sequence (d : dev) (n : nat) :
  tid d = 0 ->
  Device.nth_read n d = Ok (issued n) /\
  (Z.of_nat n <= MAX -> Device.nth_read n d = Ok (Z.of_nat n)) /\
  (Device.nth_read n d = Ok MAX -> Device.nth_read (S n) d = Ok 1) /\
  ((0 < n)%nat -> Device.nth_read n d <> Ok 0) /\
  fst (Device.__transaction
         (snd (Device.__transaction_setter 0 (Device.after_reads n d)))) = Ok 0.
Proof.
  intros H0. split; [|split; [|split; [|split]]].
  - now apply nth_read_issued.
  - intros Hn. rewrite nth_read_issued by assumption. now rewrite issued_small.
  - rewrite !nth_read_issued by assumption. intros Hn.
    rewrite issued_succ. injection Hn as ->. reflexivity.
  - intros Hn. rewrite nth_read_issued by assumption.
    pose proof (issued_positive n Hn). intros E. injection E as E. lia.
  - rewrite transaction_read. reflexivity.
Qed.

(** C3.  [open_session] bumps the session counter to a new value [S],
    resets the transaction counter, and hands the transport an
    [OpenSession] frame with SessionID 0, TransactionID 0 and parameters
    [S, 0, 0, 0, 0]; whatever the transport answers (or raises) is the
    outcome of the call. *)
Theorem open_session_exchange (d : dev) :
  Device.open_session mesg d =
  mesg (mkContainer "OperationCode" (Sym "OpenSession") 0 0
          [Device.__session d + 1; 0; 0; 0; 0])
       (Device.mkDevice (Device.__session d + 1) 1 (Device.transport d)).
Proof.
  unfold Device.open_session, Device.bind at 1 2.
  unfold Device.modify at 1, Device.__transaction_setter.
  cbn [Z.eqb negb]. unfold Device.modify at 1, Device.bind at 1.
  rewrite transaction_read.
  unfold Device.bind, Device.gets, Device.ret. cbn.
  destruct (mesg _ _) as [[r|e] d']; reflexivity.
Qed.

(** What [close_session] does, for the lemmas on [session()]. *)
Lemma close_session_exchange (d : dev) :
  Device.close_session mesg d =
  mesg (mkContainer "OperationCode" (Sym "CloseSession") (Device.__session d)
          (tid d) [0; 0; 0; 0; 0])
       (Device.set_transaction_id
          (if tid d + 1 >? MAX then 1 else tid d + 1) d).
Proof.
  unfold Device.close_session, Device.bind at 1 2. unfold Device.gets at 1.
  rewrite transaction_read.
  unfold Device.bind, Device.ret.
  destruct (mesg _ _) as [[r|e] d']; reflexivity.
Qed.

(** C2.  When [open_session] returns, [with self.session(): body] calls
    [open_session] once, runs the body, and calls [close_session] exactly
    once however the body is left: by running to its end, by an early
    return or by an exception; the body's way of leaving (its exception
    included) is the outcome of the whole statement once [close_session]
    has returned, and an exception of [close_session] itself takes its
    place otherwise. *)
Theorem session_closes_once
  (body : dev -> Device.completion * dev) (d d1 d2 d3 : dev)
  (r : Resp) (c : Device.completion) (closed : result Resp) :
  Device.open_session mesg d = (Ok r, d1) ->
  body d1 = (c, d2) ->
  Device.close_session mesg d2 = (closed, d3) ->
  Device.with_session mesg body d =
    ([Device.CallOpen; Device.RunBody; Device.CallClose],
     match closed with Ok _ => c | Raise e' => Device.Raised e' end,
     d3) /\
  Device.count Device.CallOpen
    (fst (fst (Device.with_session mesg body d))) = 1%nat /\
  Device.count Device.CallClose
    (fst (fst (Device.with_session mesg body d))) = 1%nat.
Proof.
  intros Hopen Hbody Hclose.
  assert (E : Device.with_session mesg body d =
    ([Device.CallOpen; Device.RunBody; Device.CallClose],
     match closed with Ok _ => c | Raise e' => Device.Raised e' end, d3)).
  { unfold Device.with_session, Device.cm_enter, Device.session_start.
    rewrite Hopen, Hbody.
    unfold Device.cm_exit, Device.session_resume, Device.session_finally.
    destruct c; rewrite Hclose; destruct closed; reflexivity. }
  rewrite E. repeat split.
Qed.

(** C9.  When [open_session] itself raises, [session()] still calls
    [close_session] before the exception leaves the [with] statement, and
    the body is not run; the exception that leaves is the one of
    [open_session], unless [close_session] raises one of its own. *)
Theorem session_closes_after_failed_open
  (body : dev -> Device.completion * dev) (d d1 d2 : dev)
  (e : exn) (closed : result Resp) :
  Device.open_session mesg d = (Raise e, d1) ->
  Device.close_session mesg d1 = (closed, d2) ->
  Device.with_session mesg body d =
    ([Device.CallOpen; Device.CallClose],
     Device.Raised (match closed with Ok _ => e | Raise e' => e' end),
     d2).
Proof.
  intros Hopen Hclose.
  unfold Device.with_session, Device.cm_enter, Device.session_start.
  rewrite Hopen. unfold Device.session_finally. rewrite Hclose.
  destruct closed; reflexivity.
Qed.

(** C10.  Assigning to [session_id] raises nothing and leaves the device,
    its session counter included, as it was; [session_id] keeps reading
    the internal counter. *)
Theorem session_id_assignment_ignored (v : pyval) (d : dev) :
  Device.session_id_setter v d = (Ok tt, d) /\
  Device.__session (snd (Device.session_id_setter v d)) = Device.__session d /\
  Device.session_id (snd (Device.session_id_setter v d)) =
    (Ok (Device.__session d), d).
Proof.
  repeat split.
Qed.

End WithTransport.

(** The sequence on a device that has just been created. *)
Lemma transaction_sequence_witness :
  Device.nth_read 3 (Device.mkDevice 0 0 tt) = Ok 3.
Proof.
  exact (proj1 (proj2 (transaction_sequence unit (Device.mkDevice 0 0 tt) 3
                         eq_refl)) ltac:(cbn; lia)).
Defined.

(** A body that raises, on the recording transport. *)
Lemma session_closes_once_witness :
  Device.with_session Device.recording_mesg
    (fun d => (Device.Raised (TransportFailure "lost"), d))
    (Device.mkDevice 0 0 []) =
  ([Device.CallOpen; Device.RunBody; Device.CallClose],
   Device.Raised (TransportFailure "lost"),
   Device.mkDevice 1 2
     [mkContainer "OperationCode" (Sym "OpenSession") 0 0 [1; 0; 0; 0; 0];
      mkContainer "OperationCode" (Sym "CloseSession") 1 1 [0; 0; 0; 0; 0]]).
Proof.
  exact (proj1 (session_closes_once (list Container) code Device.recording_mesg
                  (fun d => (Device.Raised (TransportFailure "lost"), d))
                  (Device.mkDevice 0 0 []) _ _ _ (Sym "OK")
                  (Device.Raised (TransportFailure "lost")) (Ok (Sym "OK"))
                  eq_refl eq_refl eq_refl)).
Defined.

(** The base class, whose [mesg] always raises. *)
Lemma session_closes_after_failed_open_witness :
  Device.with_session (@Device.base_mesg unit code)
    (fun d => (Device.Normal, d)) (Device.mkDevice 0 0 tt) =
  ([Device.CallOpen; Device.CallClose],
   Device.Raised
     (PTPUnimplemented
        "Please implement PTP no-dataphase command for this transport."),
   Device.mkDevice 1 2 tt).
Proof.
  exact (session_closes_after_failed_open unit code Device.base_mesg
           (fun d => (Device.Normal, d)) (Device.mkDevice 0 0 tt) _ _ _
           (Raise (PTPUnimplemented
              "Please implement PTP no-dataphase command for this transport."))
           eq_refl eq_refl).
Defined.

End DeviceFacts.

(** * Properties of the codecs *)

Module CodecFacts.

Import Codec.

(** ** Bytes and fixed-width integers *)

Lemma Z_of_byte_range (b : byte) : 0 <= Z_of_byte b < 256.
Proof.
  unfold Z_of_byte. pose proof (Byte.to_N_bounded b). lia.
Qed.

Lemma Z_of_byte_of_Z (z : Z) : 0 <= z < 256 -> Z_of_byte (byte_of_Z z) = z.
Proof.
  intros Hz. unfold Z_of_byte, byte_of_Z.
  rewrite Z.mod_small by lia.
  destruct (Byte.of_N (Z.to_N z)) as [b|] eqn:E.
  - apply Byte.to_of_N in E. rewrite E. lia.
  - apply Byte.of_N_None_iff in E. lia.
Qed.

Lemma le_bytes_length (n : nat) (z : Z) : List.length (le_bytes n z) = n.
Proof.
  revert z. induction n as [|n IH]; intros z; cbn; [reflexivity|].
  now rewrite IH.
Qed.

Lemma le_value_le_bytes (n : nat) (z : Z) :
  0 <= z < 256 ^ Z.of_nat n -> le_value (le_bytes n z) = z.
Proof.
  revert z. induction n as [|n IH]; intros z Hz.
  - cbn in *. lia.
  - cbn [le_bytes le_value].
    rewrite Nat2Z.inj_succ, Z.pow_succ_r in Hz by lia.
    pose proof (Z.mod_pos_bound z 256 ltac:(lia)) as Hm.
    rewrite Z_of_byte_of_Z by lia.
    rewrite IH.
    + pose proof (Z.div_mod z 256 ltac:(lia)). lia.
    + split.
      * apply Z.div_pos; lia.
      * apply Z.div_lt_upper_bound; lia.
Qed.

Lemma wire_order_involutive host (e : endianity) (bs : list byte) :
  wire_order host e (wire_order host e bs) = bs.
Proof.
  destruct e; cbn; [reflexivity | apply rev_involutive |].
  destruct host; [reflexivity | apply rev_involutive].
Qed.

Lemma wire_order_length host (e : endianity) (bs : list byte) :
  List.length (wire_order host e bs) = List.length bs.
Proof.
  destruct e; cbn; [reflexivity | apply length_rev |].
  destruct host; [reflexivity | apply length_rev].
Qed.

Lemma read_stream_exact (bs rest : list byte) :
  _read_stream (List.length bs) (bs ++ rest) = Ok (bs, rest).
Proof.
  unfold _read_stream.
  assert (H : (List.length (bs ++ rest) <? List.length bs)%nat = false).
  { apply Nat.ltb_ge. rewrite length_app. lia. }
  rewrite H. clear H. f_equal. f_equal.
  - induction bs as [|b bs IH]; cbn; [reflexivity | now rewrite IH].
  - induction bs as [|b bs IH]; cbn; [reflexivity | exact IH].
Qed.

Lemma pack_ok host e n z :
  0 <= z < 256 ^ Z.of_nat n ->
  pack host e n z = Ok (wire_order host e (le_bytes n z)).
Proof.
  intros Hz. unfold pack.
  destruct (Z.leb_spec 0 z); [|lia].
  destruct (Z.ltb_spec z (256 ^ Z.of_nat n)); [|lia].
  reflexivity.
Qed.

Lemma pack_length host e n z bs :
  pack host e n z = Ok bs -> List.length bs = n.
Proof.
  unfold pack. destruct (_ && _); [|discriminate].
  intros H. injection H as <-. now rewrite wire_order_length, le_bytes_length.
Qed.

(** A fixed-width field writes [n] bytes and reads its value back. *)
Lemma FormatField_faithful host e n nm z :
  0 <= z < 256 ^ Z.of_nat n -> faithful (FormatField host e n nm) z.
Proof.
  intros Hz. exists (wire_order host e (le_bytes n z)). split.
  - cbn. now rewrite pack_ok.
  - intros rest. cbn.
    replace n with (List.length (wire_order host e (le_bytes n z))) at 1
      by now rewrite wire_order_length, le_bytes_length.
    rewrite read_stream_exact. unfold rbind, unpack.
    now rewrite wire_order_involutive, le_value_le_bytes.
Qed.

Lemma FormatField_build_length host e n nm z bs :
  _build (FormatField host e n nm) z = Ok bs -> List.length bs = n.
Proof.
  cbn. destruct (pack host e n z) eqn:E; [|discriminate].
  intros H. injection H as <-. eapply pack_length; eauto.
Qed.

(** ** Bit fields *)

Lemma int_to_bin_loop_length (k : nat) (number : Z) (acc : list byte) :
  List.length (int_to_bin_loop k number acc) = (k + List.length acc)%nat.
Proof.
  revert number acc. induction k as [|k IH]; intros number acc.
  - reflexivity.
  - cbn [int_to_bin_loop]. destruct (number =? 0).
    + rewrite length_app, repeat_length. reflexivity.
    + rewrite IH. cbn. lia.
Qed.

Lemma lor_shift_bit (s v : Z) :
  0 <= s -> v = 0 \/ v = 1 -> Z.lor (Z.shiftl s 1) v = 2 * s + v.
Proof.
  intros Hs [-> | ->]; destruct s as [|p|p]; try lia; reflexivity.
Qed.

Lemma bin_to_int_zeros (k : nat) (s : Z) (acc : list byte) :
  0 <= s ->
  bin_to_int_from s (repeat x00 k ++ acc) =
  bin_to_int_from (s * 2 ^ Z.of_nat k) acc.
Proof.
  revert s. induction k as [|k IH]; intros s Hs.
  - cbn. now rewrite Z.mul_1_r.
  - cbn [repeat app bin_to_int_from _bit_values].
    rewrite lor_shift_bit by auto. rewrite IH by lia.
    rewrite Nat2Z.inj_succ, Z.pow_succ_r by lia. f_equal. lia.
Qed.

Lemma bit_value_of_bit_byte (number : Z) :
  0 <= number ->
  _bit_values (bit_byte (Z.land number 1)) = Some (number mod 2).
Proof.
  intros Hn. change 1 with (Z.ones 1). rewrite Z.land_ones by lia.
  change (2 ^ 1) with 2.
  pose proof (Z.mod_pos_bound number 2 ltac:(lia)) as Hb.
  unfold bit_byte.
  destruct (Z.eqb_spec (number mod 2) 0) as [E|E].
  - now rewrite E.
  - replace (number mod 2) with 1 by lia. reflexivity.
Qed.

(** Reading back what the [int_to_bin] loop wrote. *)
Lemma bin_to_int_loop (k : nat) (number s : Z) (acc : list byte) :
  0 <= number < 2 ^ Z.of_nat k -> 0 <= s ->
  bin_to_int_from s (int_to_bin_loop k number acc) =
  bin_to_int_from (s * 2 ^ Z.of_nat k + number) acc.
Proof.
  revert number s acc. induction k as [|k IH]; intros number s acc Hn Hs.
  - cbn in *. f_equal. lia.
  - cbn [int_to_bin_loop].
    rewrite Nat2Z.inj_succ, Z.pow_succ_r in * by lia.
    destruct (Z.eqb_spec number 0) as [E|E].
    + subst number. change (repeat x00 (S k)) with (x00 :: repeat x00 k).
      cbn [app bin_to_int_from _bit_values].
      rewrite lor_shift_bit by auto. rewrite bin_to_int_zeros by lia.
      f_equal. lia.
    + rewrite IH.
      * cbn [bin_to_int_from]. rewrite bit_value_of_bit_byte by lia.
        pose proof (Z.mod_pos_bound number 2 ltac:(lia)) as Hb.
        rewrite Z.shiftr_div_pow2 by lia. change (2 ^ 1) with 2.
        assert (Hq : 0 <= number / 2) by (apply Z.div_pos; lia).
        assert (Hp : 0 <= 2 ^ Z.of_nat k) by (apply Z.pow_nonneg; lia).
        rewrite lor_shift_bit by (try lia; nia).
        pose proof (Z.div_mod number 2 ltac:(lia)).
        f_equal. lia.
      * rewrite Z.shiftr_div_pow2 by lia. change (2 ^ 1) with 2. split.
        -- apply Z.div_pos; lia.
        -- apply Z.div_lt_upper_bound; lia.
      * exact Hs.
Qed.

Lemma bin_to_int_int_to_bin (z : Z) (width : nat) :
  0 <= z < 2 ^ Z.of_nat width -> bin_to_int (int_to_bin z width) = Ok z.
Proof.
  intros Hz. unfold bin_to_int, int_to_bin.
  destruct (Z.ltb_spec z 0); [lia|].
  rewrite bin_to_int_loop by lia. reflexivity.
Qed.

Lemma int_to_bin_length (z : Z) (width : nat) :
  List.length (int_to_bin z width) = width.
Proof.
  unfold int_to_bin. rewrite int_to_bin_loop_length. cbn. lia.
Qed.

(** A list of exactly 32 entries, spelled out. *)
Ltac spell_out l H :=
  do 32 (destruct l as [|? l]; [discriminate H|]);
  destruct l; [clear H | discriminate H].

Lemma swap_bytes_32_involutive (l : list byte) :
  List.length l = 32%nat -> swap_bytes (swap_bytes l) = l.
Proof.
  intros H. spell_out l H. reflexivity.
Qed.

Lemma swap_bytes_32_length (l : list byte) :
  List.length l = 32%nat -> List.length (swap_bytes l) = 32%nat.
Proof.
  intros H. spell_out l H. reflexivity.
Qed.

(** A 32-bit parameter writes 32 one-bit bytes and reads itself back. *)
Lemma BitField_faithful (nm : string) (swapped : bool) (z : Z) :
  0 <= z < 0x100000000 -> faithful (BitField nm 32 swapped) z.
Proof.
  intros Hz.
  assert (Hlen : List.length (int_to_bin z 32) = 32%nat)
    by apply int_to_bin_length.
  assert (Hval : bin_to_int (int_to_bin z 32) = Ok z)
    by (apply bin_to_int_int_to_bin; cbn; lia).
  set (bits := int_to_bin z 32) in *.
  exists (if swapped then swap_bytes bits else bits).
  assert (Hout : List.length (if swapped then swap_bytes bits else bits) = 32%nat).
  { destruct swapped; [now apply swap_bytes_32_length | exact Hlen]. }
  split.
  - cbn [_build BitField]. destruct (Z.ltb_spec z 0); [lia|].
    fold bits. rewrite Hout. reflexivity.
  - intros rest. cbn [_parse BitField].
    rewrite <- Hout at 1. rewrite read_stream_exact.
    destruct swapped.
    + rewrite swap_bytes_32_involutive by exact Hlen. now rewrite Hval.
    + now rewrite Hval.
Qed.

Lemma BitField_build_length (nm : string) (swapped : bool) (z : Z) bs :
  _build (BitField nm 32 swapped) z = Ok bs -> List.length bs = 32%nat.
Proof.
  cbn [_build BitField]. destruct (z <? 0); [discriminate|].
  match goal with
  | |- (if (List.length ?l =? 32)%nat then _ else _) = _ -> _ =>
      destruct (Nat.eqb_spec (List.length l) 32) as [E|E]; [|discriminate]
  end.
  intros H. injection H as <-. exact E.
Qed.

(** ** Dictionaries *)

Section DictFacts.
Context {K V : Type} (eqb : K -> K -> bool).
Hypothesis eqb_eq : forall a b, eqb a b = true <-> a = b.

Lemma dict_get_set (k k' : K) (v : V) (d : list (K * V)) :
  dict_get eqb k (dict_set eqb k' v d) =
  if eqb k' k then Some v else dict_get eqb k d.
Proof.
  induction d as [|[k1 v1] d IH]; cbn.
  - reflexivity.
  - destruct (eqb k1 k') eqn:E1; cbn.
    + apply eqb_eq in E1. subst k1. destruct (eqb k' k); reflexivity.
    + rewrite IH. destruct (eqb k1 k) eqn:E2; [|reflexivity].
      destruct (eqb k' k) eqn:E3; [|reflexivity].
      apply eqb_eq in E2, E3. subst.
      assert (Hrefl : eqb k k = true) by now apply eqb_eq.
      congruence.
Qed.

Lemma dict_set_In (k : K) (v : V) (d : list (K * V)) (kv : K * V) :
  In kv (dict_set eqb k v d) -> kv = (k, v) \/ In kv d.
Proof.
  induction d as [|[k1 v1] d IH]; cbn.
  - intros [<- | []]. now left.
  - destruct (eqb k1 k) eqn:E; cbn.
    + apply eqb_eq in E. subst k1. intros [<- | H]; auto.
    + intros [<- | H]; auto. destruct (IH H); auto.
Qed.

Lemma fold_set_get_none (k : K) (items d : list (K * V)) :
  (forall kv, In kv items -> eqb (fst kv) k = false) ->
  dict_get eqb k d = None ->
  dict_get eqb k
    (fold_left (fun d kv => dict_set eqb (fst kv) (snd kv) d) items d) = None.
Proof.
  revert d. induction items as [|kv items IH]; intros d Hmiss Hd; cbn.
  - exact Hd.
  - apply IH.
    + intros kv' Hin. apply Hmiss. now right.
    + rewrite dict_get_set, (Hmiss kv) by now left. exact Hd.
Qed.

Lemma fold_set_In (items d : list (K * V)) (kv : K * V) :
  In kv (fold_left (fun d kv => dict_set eqb (fst kv) (snd kv) d) items d) ->
  In kv items \/ In kv d.
Proof.
  revert d. induction items as [|kv' items IH]; intros d; cbn.
  - auto.
  - intros H. destruct (IH _ H) as [H1 | H1]; auto.
    apply dict_set_In in H1. destruct H1 as [-> | H1]; auto.
    left. left. now destruct kv'.
Qed.

(** A key that no item carries is not in the dictionary. *)
Lemma dict_of_items_miss (k : K) (items : list (K * V)) :
  (forall kv, In kv items -> eqb (fst kv) k = false) ->
  dict_get eqb k (dict_of_items eqb items) = None.
Proof.
  intros H. unfold dict_of_items. now apply fold_set_get_none.
Qed.

(** The dictionary holds nothing but items. *)
Lemma dict_of_items_In (items : list (K * V)) (kv : K * V) :
  In kv (dict_of_items eqb items) -> In kv items.
Proof.
  intros H. apply fold_set_In in H. destruct H as [H | []]. exact H.
Qed.

End DictFacts.

(** ** Code tables *)

Lemma known_name_false (kw : list (string * Z)) (s : string) :
  PTP.known_name kw s = false ->
  forall kv, In kv kw -> String.eqb (fst kv) s = false.
Proof.
  unfold PTP.known_name. intros H kv Hin.
  destruct (String.eqb (fst kv) s) eqn:E; [|reflexivity].
  rewrite <- H. symmetry. apply existsb_exists. eauto.
Qed.

Lemma known_value_false (kw : list (string * Z)) (n : Z) :
  PTP.known_value kw n = false ->
  forall kv, In kv kw -> Z.eqb (snd kv) n = false.
Proof.
  unfold PTP.known_value. intros H kv Hin.
  destruct (Z.eqb (snd kv) n) eqn:E; [|reflexivity].
  rewrite <- H. symmetry. apply existsb_exists. eauto.
Qed.

(** Encoding a name that is no keyword: the name itself reaches the
    integer field, which refuses it. *)
Lemma Enum_build_unknown (subcon : Construct Z) (kw : list (string * Z))
  (s : string) :
  PTP.known_name kw s = false ->
  _build (Enum subcon Pass kw) (Sym s) = Raise FieldError.
Proof.
  intros H. cbn [_build Enum]. unfold mapping_encode.
  rewrite (dict_of_items_miss String.eqb String.eqb_eq).
  - reflexivity.
  - now apply known_name_false.
Qed.

(** Decoding a number that no keyword stands for. *)
Lemma mapping_decode_miss (kw : list (string * Z)) (n : Z) :
  PTP.known_value kw n = false ->
  mapping_decode
    (dict_of_items Z.eqb
       (map (fun kv => (snd kv, fst kv)) (dict_of_items String.eqb kw)))
    Pass n = Ok (Num n).
Proof.
  intros H. unfold mapping_decode.
  rewrite (dict_of_items_miss Z.eqb Z.eqb_eq).
  - reflexivity.
  - intros [v k] Hin. apply in_map_iff in Hin.
    destruct Hin as [[k' v'] [E Hin]]. cbn in E. injection E as -> ->. cbn.
    apply (dict_of_items_In String.eqb String.eqb_eq) in Hin.
    exact (known_value_false kw n H (k, v) Hin).
Qed.

(** The code construct that a table function returns. *)
Lemma table_codec_shape host (t : PTP.code_table) (le be : bool)
  (vendor : list (string * Z)) (codec : Construct code) :
  PTP.table_codec host t le be vendor = Ok codec ->
  exists nm,
    codec = Enum (FormatField host (PTP.selected le be) 2 nm) Pass
              (PTP.table_entries t ++ vendor).
Proof.
  destruct t; cbn [PTP.table_codec PTP.table_entries];
    unfold PTP.OperationCode, PTP.ResponseCode, PTP.EventCode,
      PTP.PropertyCode, PTP.ObjectFormatCode, PTP.keywords;
    destruct le, be; cbn [PTP.switch_endian Bool.eqb negb rbind];
    try discriminate;
    match goal with
    | |- context [existsb ?f vendor] => destruct (existsb f vendor)
    end; cbn [rbind]; try discriminate;
    intros H; injection H as <-; eexists; reflexivity.
Qed.

Lemma table_roundtrips_known (kw : list (string * Z)) (s : string) :
  PTP.table_roundtrips kw = true -> PTP.known_name kw s = true ->
  PTP.entry_roundtrips kw s = true.
Proof.
  unfold PTP.table_roundtrips, PTP.known_name. intros Hall Hs.
  apply existsb_exists in Hs. destruct Hs as [kv [Hin E]].
  apply String.eqb_eq in E. subst s.
  rewrite forallb_forall in Hall. now apply Hall.
Qed.

Lemma frame_tables_roundtrip (k : PTP.frame_kind) :
  PTP.table_roundtrips (PTP.frame_entries k) = true.
Proof.
  destruct k; vm_compute; reflexivity.
Qed.

Lemma u16_range (z : Z) : PTP.u16 z = true -> 0 <= z < 256 ^ Z.of_nat 2.
Proof.
  unfold PTP.u16. intros H. apply andb_prop in H. destruct H as [H1 H2].
  apply Z.leb_le in H1. apply Z.ltb_lt in H2. cbn. lia.
Qed.

Lemma u32_range (z : Z) : PTP.u32 z = true -> 0 <= z < 256 ^ Z.of_nat 4.
Proof.
  unfold PTP.u32. intros H. apply andb_prop in H. destruct H as [H1 H2].
  apply Z.leb_le in H1. apply Z.ltb_lt in H2. cbn. lia.
Qed.

(** A well-formed code is written and read back by its [Enum]. *)
Lemma Enum_faithful host e nm (kw : list (string * Z)) (c : code) :
  PTP.table_roundtrips kw = true -> PTP.wf_code kw c = true ->
  faithful (Enum (FormatField host e 2 nm) Pass kw) c.
Proof.
  intros Htab Hwf. destruct c as [s | n]; cbn [PTP.wf_code] in Hwf.
  - pose proof (table_roundtrips_known kw s Htab Hwf) as Hs.
    unfold PTP.entry_roundtrips in Hs.
    destruct (dict_get String.eqb s (dict_of_items String.eqb kw))
      as [v|] eqn:Ev; [|discriminate].
    apply andb_prop in Hs. destruct Hs as [Hv Hs].
    destruct (dict_get Z.eqb v _) as [s'|] eqn:Es; [|discriminate].
    apply String.eqb_eq in Hs. subst s'.
    destruct (FormatField_faithful host e 2 nm v (u16_range v Hv))
      as [bs [Hb Hp]].
    exists bs. split.
    + cbn [_build Enum]. unfold mapping_encode. rewrite Ev. cbn [rbind].
      exact Hb.
    + intros rest. cbn [_parse Enum]. rewrite Hp. cbn [rbind].
      unfold mapping_decode. rewrite Es. reflexivity.
  - apply andb_prop in Hwf. destruct Hwf as [Hn Hmiss].
    apply negb_true_iff in Hmiss.
    destruct (FormatField_faithful host e 2 nm n (u16_range n Hn))
      as [bs [Hb Hp]].
    exists bs. split.
    + cbn [_build Enum]. unfold mapping_encode. cbn [rbind]. exact Hb.
    + intros rest. cbn [_parse Enum]. rewrite Hp. cbn [rbind].
      now rewrite mapping_decode_miss.
Qed.

(** ** Arrays and frames *)

Lemma array_faithful {A} (subcon : Construct A) (xs : list A) :
  Forall (faithful subcon) xs ->
  exists bs, array_build subcon xs = Ok bs /\
             forall count c rest,
               array_parse subcon count c (List.length xs) (bs ++ rest) =
               Ok (xs, rest).
Proof.
  induction 1 as [|x xs [b [Hb Hp]] _ [bs [Hbs Hps]]].
  - exists []. split; [reflexivity|]. intros. reflexivity.
  - exists (b ++ bs). split.
    + cbn. rewrite Hb, Hbs. reflexivity.
    + intros count c rest. cbn [List.length array_parse].
      rewrite <- app_assoc, Hp, Hps. reflexivity.
Qed.

Lemma MetaArray_faithful {A} (subcon : Construct A) (count : Z) (xs : list A) :
  Z.of_nat (List.length xs) = count ->
  Forall (faithful subcon) xs ->
  faithful (MetaArray subcon count) xs.
Proof.
  intros Hlen Hall. destruct (array_faithful subcon xs Hall) as [bs [Hb Hp]].
  exists bs. split.
  - cbn [_build MetaArray]. rewrite Hlen, Z.eqb_refl. exact Hb.
  - intros rest. cbn [_parse MetaArray]. rewrite <- Hlen, Nat2Z.id. apply Hp.
Qed.

Lemma FrameStruct_faithful nm (c1 : Construct code) (c2 c3 : Construct Z)
  (c4 : Construct (list Z)) (f : Container) :
  code_key f = name c1 ->
  faithful c1 (code_value f) -> faithful c2 (SessionID_ f) ->
  faithful c3 (TransactionID_ f) -> faithful c4 (Parameter_ f) ->
  faithful (FrameStruct nm c1 c2 c3 c4) f.
Proof.
  intros Hkey [b1 [B1 P1]] [b2 [B2 P2]] [b3 [B3 P3]] [b4 [B4 P4]].
  exists (b1 ++ b2 ++ b3 ++ b4). split.
  - cbn [_build FrameStruct]. rewrite Hkey, String.eqb_refl. cbn [negb].
    rewrite B1, B2, B3, B4. reflexivity.
  - intros rest. cbn [_parse FrameStruct].
    rewrite <- !app_assoc, P1. cbn [rbind]. rewrite P2. cbn [rbind].
    rewrite P3. cbn [rbind]. rewrite P4. cbn [rbind].
    rewrite <- Hkey. destruct f; reflexivity.
Qed.

(** The construct that a frame function returns. *)
Lemma frame_codec_shape host (k : PTP.frame_kind) (le be : bool)
  (codec : Construct Container) :
  PTP.frame_codec host k le be = Ok codec ->
  exists nm swapped,
    codec =
    FrameStruct nm
      (Enum (FormatField host (PTP.selected le be) 2 (PTP.frame_key k)) Pass
         (PTP.frame_entries k))
      (FormatField host (PTP.selected le be) 4 "SessionID")
      (FormatField host (PTP.selected le be) 4 "TransactionID")
      (MetaArray (BitField "Parameter" 32 swapped) (PTP.frame_count k)).
Proof.
  destruct k; cbn [PTP.frame_codec PTP.frame_key PTP.frame_entries PTP.frame_count];
    unfold PTP.Operation, PTP.Response, PTP.Event,
      PTP.OperationCode, PTP.ResponseCode, PTP.EventCode,
      PTP.SessionID, PTP.TransactionID, PTP.Parameter_field, PTP.keywords;
    destruct le, be;
    cbn [PTP.switch_endian Bool.eqb negb rbind existsb];
    try discriminate;
    rewrite app_nil_r;
    intros H; injection H as <-; do 2 eexists; reflexivity.
Qed.

(** C5.  For each of the five code tables (with or without vendor
    entries): a 16-bit number that no entry stands for decodes to that
    very number, decoding two bytes never fails, and encoding a name that
    is no entry fails with an error. *)
Theorem code_table_miss host (t : PTP.code_table) (le be : bool)
  (vendor : list (string * Z)) (codec : Construct code) :
  PTP.table_codec host t le be vendor = Ok codec ->
  (forall n rest,
     0 <= n < 0x10000 ->
     PTP.known_value (PTP.table_entries t ++ vendor) n = false ->
     _parse codec
       (wire_order host (PTP.selected le be) (le_bytes 2 n) ++ rest) =
     Ok (Num n, rest)) /\
  (forall b1 b2 rest, exists c, parse codec (b1 :: b2 :: rest) = Ok c) /\
  (forall s,
     PTP.known_name (PTP.table_entries t ++ vendor) s = false ->
     build codec (Sym s) = Raise FieldError).
Proof.
  intros Hc. apply table_codec_shape in Hc. destruct Hc as [nm ->].
  split; [|split].
  - intros n rest Hn Hmiss.
    destruct (FormatField_faithful host (PTP.selected le be) 2 nm n
                ltac:(cbn; lia)) as [bs [Hb Hp]].
    cbn [_build FormatField] in Hb. rewrite pack_ok in Hb by (cbn; lia).
    injection Hb as <-.
    cbn [_parse Enum]. rewrite Hp. cbn [rbind].
    now rewrite mapping_decode_miss.
  - intros b1 b2 rest. unfold parse. cbn [_parse Enum FormatField].
    cbn [_read_stream List.length Nat.ltb Nat.leb firstn skipn rbind].
    unfold mapping_decode.
    destruct (dict_get Z.eqb _ _); eexists; reflexivity.
  - intros s Hs. unfold build. now apply Enum_build_unknown.
Qed.

Lemma wf_frame_parts (k : PTP.frame_kind) (f : Container) :
  PTP.wf_frame k f = true ->
  code_key f = PTP.frame_key k /\
  PTP.wf_code (PTP.frame_entries k) (code_value f) = true /\
  PTP.u32 (SessionID_ f) = true /\ PTP.u32 (TransactionID_ f) = true /\
  Z.of_nat (List.length (Parameter_ f)) = PTP.frame_count k /\
  Forall (fun p => PTP.u32 p = true) (Parameter_ f).
Proof.
  unfold PTP.wf_frame, PTP.wf_header. intros H.
  repeat (apply andb_prop in H; let H' := fresh "H" in destruct H as [H H']).
  repeat split; try assumption.
  - now apply String.eqb_eq.
  - now apply Z.eqb_eq.
  - apply Forall_forall. now apply forallb_forall.
Qed.

(** C4.  For each frame kind and each selection of byte order, a
    well-formed frame (its code the name of a table entry or a 16-bit
    number outside the table, 32-bit identifiers, the kind's number of
    32-bit parameters) is encoded, and decoding those bytes gives the
    frame back. *)
Theorem frame_roundtrip host (k : PTP.frame_kind) (le be : bool)
  (codec : Construct Container) (f : Container) :
  PTP.frame_codec host k le be = Ok codec ->
  PTP.wf_frame k f = true ->
  exists bs, build codec f = Ok bs /\ parse codec bs = Ok f.
Proof.
  intros Hc Hwf. apply frame_codec_shape in Hc.
  destruct Hc as [nm [swapped ->]].
  apply wf_frame_parts in Hwf.
  destruct Hwf as [Hkey [Hcode [Hs [Ht [Hlen Hps]]]]].
  assert (F : faithful
                (FrameStruct nm
                   (Enum (FormatField host (PTP.selected le be) 2
                            (PTP.frame_key k)) Pass (PTP.frame_entries k))
                   (FormatField host (PTP.selected le be) 4 "SessionID")
                   (FormatField host (PTP.selected le be) 4 "TransactionID")
                   (MetaArray (BitField "Parameter" 32 swapped)
                      (PTP.frame_count k))) f).
  { apply FrameStruct_faithful.
    - exact Hkey.
    - apply Enum_faithful; [apply frame_tables_roundtrip | exact Hcode].
    - apply FormatField_faithful, u32_range, Hs.
    - apply FormatField_faithful, u32_range, Ht.
    - apply MetaArray_faithful; [exact Hlen|].
      eapply Forall_impl; [|exact Hps].
      intros p Hp. apply BitField_faithful.
      apply u32_range in Hp. cbn in Hp. lia. }
  destruct F as [bs [Hb Hp]].
  exists bs. split; [exact Hb|].
  unfold parse. rewrite <- (app_nil_r bs), Hp. reflexivity.
Qed.

Lemma Enum_build_length host e n nm d kw (c : code) bs :
  _build (Enum (FormatField host e n nm) d kw) c = Ok bs -> List.length bs = n.
Proof.
  cbn [_build Enum]. destruct (mapping_encode _ d c) as [[s|z]|err];
    cbn [rbind build_encoded]; try discriminate.
  apply FormatField_build_length.
Qed.

Lemma array_build_length {A} (subcon : Construct A) (m : nat) (xs : list A) bs :
  (forall x b, _build subcon x = Ok b -> List.length b = m) ->
  array_build subcon xs = Ok bs ->
  List.length bs = (m * List.length xs)%nat.
Proof.
  intros Hm. revert bs. induction xs as [|x xs IH]; intros bs; cbn.
  - intros H. injection H as <-. cbn. lia.
  - destruct (_build subcon x) as [b|] eqn:Eb; [|discriminate].
    destruct (array_build subcon xs) as [bs'|]; [|discriminate].
    cbn [rbind]. intros H. injection H as <-.
    rewrite length_app, (Hm _ _ Eb), (IH bs' eq_refl). lia.
Qed.

(** What a frame encoder does with the parameter list. *)
Lemma frame_build_cases host (k : PTP.frame_kind) (le be : bool)
  (codec : Construct Container) (f : Container) :
  PTP.frame_codec host k le be = Ok codec ->
  (forall bs, build codec f = Ok bs ->
     Z.of_nat (List.length (Parameter_ f)) = PTP.frame_count k /\
     Z.of_nat (List.length bs) = 10 + 32 * PTP.frame_count k) /\
  (PTP.wf_header k f = true ->
   Z.of_nat (List.length (Parameter_ f)) <> PTP.frame_count k ->
   build codec f =
   Raise (ArrayError (PTP.frame_count k) (Z.of_nat (List.length (Parameter_ f))))).
Proof.
  intros Hc. apply frame_codec_shape in Hc.
  destruct Hc as [nm [swapped ->]]. unfold build. split.
  - intros bs. cbn [_build FrameStruct].
    destruct (negb _); [discriminate|].
    destruct (_build (Enum _ _ _) _) as [b1|] eqn:E1; [|discriminate].
    destruct (_build (FormatField _ _ _ "SessionID") _) as [b2|] eqn:E2;
      [|discriminate].
    destruct (_build (FormatField _ _ _ "TransactionID") _) as [b3|] eqn:E3;
      [|discriminate].
    cbn [rbind].
    destruct (_build (MetaArray _ _) _) as [b4|] eqn:E4; [|discriminate].
    cbn [rbind]. intros H. injection H as <-.
    cbn [_build MetaArray] in E4.
    destruct (Z.eqb_spec (Z.of_nat (List.length (Parameter_ f)))
                (PTP.frame_count k)) as [Hlen|Hlen];
      cbn [negb] in E4; [|discriminate].
    split; [exact Hlen|].
    apply Enum_build_length in E1. apply FormatField_build_length in E2, E3.
    apply (array_build_length _ 32) in E4;
      [|intros x b; apply BitField_build_length].
    rewrite !length_app, E1, E2, E3, E4. lia.
  - intros Hh Hlen. unfold PTP.wf_header in Hh.
    repeat (apply andb_prop in Hh; let H' := fresh "H" in destruct Hh as [Hh H']).
    destruct (Enum_faithful host (PTP.selected le be) (PTP.frame_key k) _ _
                (frame_tables_roundtrip k) H1) as [b1 [B1 _]].
    destruct (FormatField_faithful host (PTP.selected le be) 4 "SessionID" _
                (u32_range _ H0)) as [b2 [B2 _]].
    destruct (FormatField_faithful host (PTP.selected le be) 4 "TransactionID" _
                (u32_range _ H)) as [b3 [B3 _]].
    cbn [_build FrameStruct]. cbn [name Enum FormatField].
    rewrite Hh. cbn [negb]. rewrite B1, B2, B3. cbn [rbind].
    cbn [_build MetaArray].
    destruct (Z.eqb_spec (Z.of_nat (List.length (Parameter_ f)))
                (PTP.frame_count k)) as [E|E]; [contradiction|].
    reflexivity.
Qed.

(** C6, as the code has it.  A frame is encoded only when it carries
    exactly the kind's number of parameters (5 for Operation and Response,
    3 for Event), and then exactly that many parameter fields are written
    after the ten header bytes; with fewer or with more parameters
    encoding fails, with [ArrayError] when the header is well-formed.
    Nothing is padded. *)
Theorem frame_parameter_count host (k : PTP.frame_kind) (le be : bool)
  (codec : Construct Container) (f : Container) :
  PTP.frame_codec host k le be = Ok codec ->
  (forall bs, build codec f = Ok bs ->
     Z.of_nat (List.length (Parameter_ f)) = PTP.frame_count k /\
     Z.of_nat (List.length bs) = 10 + 32 * PTP.frame_count k) /\
  (Z.of_nat (List.length (Parameter_ f)) <> PTP.frame_count k ->
   exists e, build codec f = Raise e) /\
  (PTP.wf_header k f = true ->
   Z.of_nat (List.length (Parameter_ f)) <> PTP.frame_count k ->
   build codec f =
   Raise (ArrayError (PTP.frame_count k) (Z.of_nat (List.length (Parameter_ f))))).
Proof.
  intros Hc. destruct (frame_build_cases host k le be codec f Hc) as [H1 H2].
  split; [exact H1 | split; [|exact H2]].
  intros Hlen. destruct (build codec f) as [bs|e] eqn:E.
  - destruct (H1 bs eq_refl) as [Hl _]. contradiction.
  - now exists e.
Qed.

(** ** What a frame parser hands out *)

Lemma dict_get_In {K V} (eqb : K -> K -> bool)
  (eqb_eq : forall a b, eqb a b = true <-> a = b)
  (k : K) (v : V) (d : list (K * V)) :
  dict_get eqb k d = Some v -> In (k, v) d.
Proof.
  induction d as [|[k1 v1] d IH]; cbn; [discriminate|].
  destruct (eqb k1 k) eqn:E.
  - apply eqb_eq in E. subst k1. intros H. injection H as ->. now left.
  - intros H. right. now apply IH.
Qed.

Lemma le_value_bound (bs : list byte) :
  0 <= le_value bs < 256 ^ Z.of_nat (List.length bs).
Proof.
  induction bs as [|b bs IH].
  - cbn. lia.
  - cbn [le_value List.length]. rewrite Nat2Z.inj_succ, Z.pow_succ_r by lia.
    pose proof (Z_of_byte_range b). lia.
Qed.

Lemma read_stream_length (n : nat) (stream data rest : list byte) :
  _read_stream n stream = Ok (data, rest) -> List.length data = n.
Proof.
  unfold _read_stream.
  destruct (Nat.ltb_spec (List.length stream) n) as [Hlt|Hge]; [discriminate|].
  intros H. injection H as <- _. apply firstn_length_le. exact Hge.
Qed.

Lemma FormatField_parse_range host e n nm stream z rest :
  _parse (FormatField host e n nm) stream = Ok (z, rest) ->
  0 <= z < 256 ^ Z.of_nat n.
Proof.
  cbn [_parse FormatField].
  destruct (_read_stream n stream) as [[data rest']|] eqn:E; [|discriminate].
  intros H. injection H as <- _. apply read_stream_length in E.
  unfold unpack. rewrite <- E, <- (wire_order_length host e data).
  apply le_value_bound.
Qed.

Lemma bin_to_int_bound (bits : list byte) (s v : Z) :
  0 <= s -> bin_to_int_from s bits = Ok v ->
  s * 2 ^ Z.of_nat (List.length bits) <= v
  < (s + 1) * 2 ^ Z.of_nat (List.length bits).
Proof.
  revert s. induction bits as [|b bits IH]; intros s Hs.
  - cbn. intros H. injection H as <-. lia.
  - cbn [bin_to_int_from List.length].
    destruct (_bit_values b) as [bit|] eqn:Eb; [|discriminate].
    assert (Hbit : bit = 0 \/ bit = 1).
    { destruct b; cbn in Eb; try discriminate; injection Eb as <-; auto. }
    rewrite lor_shift_bit by assumption.
    intros H. apply IH in H; [|lia].
    rewrite Nat2Z.inj_succ, Z.pow_succ_r by lia.
    assert (Hp : 0 <= 2 ^ Z.of_nat (List.length bits))
      by (apply Z.pow_nonneg; lia).
    nia.
Qed.

Lemma BitField_parse_range nm swapped stream z rest :
  _parse (BitField nm 32 swapped) stream = Ok (z, rest) ->
  0 <= z < 0x100000000.
Proof.
  cbn [_parse BitField].
  destruct (_read_stream 32 stream) as [[data rest']|] eqn:E; [|discriminate].
  apply read_stream_length in E.
  destruct (bin_to_int _) as [v|] eqn:Ev; [|discriminate].
  intros H. injection H as <- _.
  apply bin_to_int_bound in Ev; [|lia].
  assert (Hl : List.length (if swapped then swap_bytes data else data) = 32%nat).
  { destruct swapped; [now apply swap_bytes_32_length | exact E]. }
  rewrite Hl in Ev. cbn in Ev. lia.
Qed.

Lemma array_parse_all {A} (subcon : Construct A) (P : A -> Prop)
  (count c : Z) (todo : nat) (stream : list byte) xs rest :
  (forall st x r, _parse subcon st = Ok (x, r) -> P x) ->
  array_parse subcon count c todo stream = Ok (xs, rest) ->
  List.length xs = todo /\ Forall P xs.
Proof.
  intros HP. revert c stream xs rest.
  induction todo as [|k IH]; intros c stream xs rest; cbn [array_parse].
  - intros H. injection H as <- _. split; [reflexivity | constructor].
  - destruct (_parse subcon stream) as [[x r]|e] eqn:E.
    + destruct (array_parse subcon count (c + 1) k r) as [[ys r']|] eqn:E';
        [|discriminate].
      cbn [rbind]. intros H. injection H as <- _.
      destruct (IH _ _ _ _ E') as [Hl Hall].
      split; [cbn; now rewrite Hl | constructor; eauto].
    + destruct (is_ConstructError e); discriminate.
Qed.

Lemma frame_tables_covered (k : PTP.frame_kind) :
  PTP.table_covered (PTP.frame_entries k) = true.
Proof.
  destruct k; vm_compute; reflexivity.
Qed.

Lemma Enum_parse_wf host e nm (kw : list (string * Z)) stream c rest :
  PTP.table_covered kw = true ->
  _parse (Enum (FormatField host e 2 nm) Pass kw) stream = Ok (c, rest) ->
  PTP.wf_code kw c = true.
Proof.
  intros Hcov. cbn [_parse Enum].
  destruct (_parse (FormatField host e 2 nm) stream) as [[v r]|] eqn:E;
    [|discriminate].
  cbn [rbind]. unfold mapping_decode.
  destruct (dict_get Z.eqb v _) as [s|] eqn:Es; cbn [rbind];
    intros H; injection H as <- _; cbn [PTP.wf_code].
  - apply (dict_get_In Z.eqb Z.eqb_eq) in Es.
    apply (dict_of_items_In Z.eqb Z.eqb_eq) in Es.
    apply in_map_iff in Es. destruct Es as [[s' v'] [Eq Hin]].
    cbn in Eq. injection Eq as -> ->.
    apply (dict_of_items_In String.eqb String.eqb_eq) in Hin.
    unfold PTP.known_name. apply existsb_exists.
    exists (s, v). split; [exact Hin | apply String.eqb_refl].
  - apply FormatField_parse_range in E. apply andb_true_intro. split.
    + unfold PTP.u16. cbn in E.
      apply andb_true_intro. split; [apply Z.leb_le | apply Z.ltb_lt]; lia.
    + apply negb_true_iff.
      destruct (PTP.known_value kw v) eqn:Ek; [|reflexivity].
      unfold PTP.known_value in Ek. apply existsb_exists in Ek.
      destruct Ek as [kv [Hin Ev]]. apply Z.eqb_eq in Ev.
      unfold PTP.table_covered in Hcov. rewrite forallb_forall in Hcov.
      specialize (Hcov kv Hin). rewrite Ev, Es in Hcov. discriminate.
Qed.

(** Every frame that a frame parser returns is well-formed. *)
Lemma parsed_frame_wf host (k : PTP.frame_kind) (le be : bool)
  (codec : Construct Container) (data : list byte) (f : Container) :
  PTP.frame_codec host k le be = Ok codec ->
  parse codec data = Ok f ->
  PTP.wf_frame k f = true.
Proof.
  intros Hc. apply frame_codec_shape in Hc.
  destruct Hc as [nm [swapped ->]]. unfold parse.
  cbn [_parse FrameStruct].
  destruct (_parse (Enum _ _ _) data) as [[c s1]|] eqn:E1; [|discriminate].
  cbn [rbind].
  destruct (_parse (FormatField _ _ _ "SessionID") s1) as [[sid s2]|] eqn:E2;
    [|discriminate].
  cbn [rbind].
  destruct (_parse (FormatField _ _ _ "TransactionID") s2) as [[tid s3]|] eqn:E3;
    [|discriminate].
  cbn [rbind].
  destruct (_parse (MetaArray _ _) s3) as [[ps s4]|] eqn:E4; [|discriminate].
  cbn [rbind]. intros H. injection H as <-.
  apply (Enum_parse_wf _ _ _ _ _ _ _ (frame_tables_covered k)) in E1.
  apply FormatField_parse_range in E2, E3.
  cbn [_parse MetaArray] in E4.
  apply (array_parse_all _ (fun z => 0 <= z < 0x100000000)) in E4;
    [|intros st x r; apply BitField_parse_range].
  destruct E4 as [Hl Hall].
  unfold PTP.wf_frame, PTP.wf_header.
  cbn [code_key code_value SessionID_ TransactionID_ Parameter_ name Enum
         FormatField].
  rewrite String.eqb_refl, E1. cbn [andb].
  assert (U : forall z, 0 <= z < 0x100000000 -> PTP.u32 z = true).
  { intros z Hz. unfold PTP.u32.
    apply andb_true_intro. split; [apply Z.leb_le | apply Z.ltb_lt]; lia. }
  cbn in E2, E3. rewrite (U sid), (U tid) by lia. cbn [andb].
  apply andb_true_intro. split.
  - apply Z.eqb_eq. rewrite Hl. destruct k; reflexivity.
  - apply forallb_forall. intros z Hz. apply U.
    rewrite Forall_forall in Hall. now apply Hall.
Qed.

(** The OpenSession frame, big-endian. *)
Lemma frame_roundtrip_witness :
  exists codec,
    PTP.Operation true false true = Ok codec /\
    exists bs, build codec PTP.open_frame = Ok bs /\
               parse codec bs = Ok PTP.open_frame.
Proof.
  eexists. split; [reflexivity|].
  exact (frame_roundtrip true PTP.OperationFrame false true _ PTP.open_frame
           eq_refl eq_refl).
Defined.

(** The unknown operation code 0x19FF and an unknown name, big-endian. *)
Lemma code_table_miss_witness :
  exists codec,
    PTP.OperationCode true false true [] = Ok codec /\
    _parse codec [x19; xff] = Ok (Num 0x19FF, []) /\
    build codec (Sym "Teleport") = Raise FieldError.
Proof.
  eexists. split; [reflexivity|].
  destruct (code_table_miss true PTP.OperationTable false true [] _ eq_refl)
    as [Hmiss [_ Hname]].
  split.
  - exact (Hmiss 0x19FF [] ltac:(lia) eq_refl).
  - exact (Hname "Teleport" eq_refl).
Defined.

(** C6, as stated, fails: an Operation frame given one parameter is not
    padded to five; encoding it raises, while the same frame with the four
    zeros written out is encoded. *)
Lemma short_parameters_not_padded :
  exists codec,
    PTP.Operation true true false = Ok codec /\
    build codec PTP.short_frame = Raise (ArrayError 5 1) /\
    build codec PTP.short_frame <> build codec PTP.padded_frame.
Proof.
  eexists. split; [reflexivity|]. split.
  - vm_compute. reflexivity.
  - vm_compute. discriminate.
Qed.

(** An Event frame given four parameters. *)
Lemma frame_parameter_count_witness :
  exists codec,
    PTP.Event true true false = Ok codec /\
    build codec PTP.long_event = Raise (ArrayError 3 4).
Proof.
  eexists. split; [reflexivity|].
  exact (proj2 (proj2 (frame_parameter_count true PTP.EventFrame true false _
                         PTP.long_event eq_refl))
           eq_refl ltac:(discriminate)).
Defined.

(** ** Strings and the device description *)

(** What a PTP string parser consumes: the length byte, and as many
    payload BYTES as it says. *)
Lemma PTPString_parse host nm (le be : bool) (codec : Construct text)
  (data rest : list byte) :
  PTP.PTPString host nm le be = Ok codec ->
  Z.of_nat (List.length data) < 256 ->
  _parse codec (byte_of_Z (Z.of_nat (List.length data)) :: data ++ rest) =
  match utf16_decode host data with
  | Ok t => Ok (t, rest)
  | Raise e => Raise e
  end.
Proof.
  intros Hc Hlen.
  assert (Hshape : exists e,
            codec = PascalString host nm (FormatField host e 1 "length") utf16).
  { unfold PTP.PTPString in Hc. destruct le, be;
      cbn [PTP.switch_endian Bool.eqb negb rbind] in Hc;
      try discriminate; injection Hc as <-; eexists; reflexivity. }
  destruct Hshape as [e ->].
  cbn [_parse PascalString FormatField].
  cbn [_read_stream List.length Nat.ltb Nat.leb firstn skipn rbind].
  assert (Hv : unpack host e [byte_of_Z (Z.of_nat (List.length data))] =
               Z.of_nat (List.length data)).
  { unfold unpack.
    replace (wire_order host e [byte_of_Z (Z.of_nat (List.length data))])
      with [byte_of_Z (Z.of_nat (List.length data))]
      by (destruct e; [| |destruct host]; reflexivity).
    cbn [le_value]. rewrite Z_of_byte_of_Z by lia. lia. }
  rewrite Hv, Nat2Z.id, read_stream_exact. reflexivity.
Qed.

(** C8 on the code.  Given the length byte 2 followed by the two units
    "A" and "B", the parser takes two BYTES of payload, returns the single
    unit they make, and leaves the second unit in the stream. *)
Theorem PTPString_length_counts_bytes host :
  exists codec,
    PTP.PTPString host "Model" false false = Ok codec /\
    _parse codec [x02; x41; x00; x42; x00] =
    Ok ([if host then 0x41 else 0x4100], [x42; x00]).
Proof.
  eexists. split; [reflexivity|]. destruct host; vm_compute; reflexivity.
Qed.

(** C7 on the code.  A [DeviceInfo] construct made with the big-endian
    selection writes the standard version, the extension id and version
    and the functional mode little-endian, and the array length in host
    order; only the supported-operation code (10 01) is big-endian. *)
Theorem DeviceInfo_big_endian_selection host :
  exists codec,
    PTP.DeviceInfo host false true = Ok codec /\
    build codec PTP.sample_info =
    Ok ([x64; x00; x06; x00; x00; x00; x64; x00]
        ++ (if host then [x02; xff; xfe] else [x02; xfe; xff])
        ++ [x00; x00]
        ++ (if host then [x01; x00; x00; x00] else [x00; x00; x00; x01])
        ++ [x10; x01]
        ++ [x00; x00; x00; x00; x00; x00; x00; x00; x00; x00; x00; x00]
        ++ (if host
            then [x02; xff; xfe; x02; xff; xfe; x02; xff; xfe; x02; xff; xfe]
            else [x02; xfe; xff; x02; xfe; xff; x02; xfe; xff; x02; xfe; xff])).
Proof.
  eexists. split; [reflexivity|]. destruct host; vm_compute; reflexivity.
Qed.

End CodecFacts.

(** * More on the session / transaction state machine *)

Module SessionFacts.
Section WithTransport.

Variables (T Resp : Type).
Variable mesg : Container -> Device.M T Resp.

Local Abbreviation dev := (Device.PTPDevice T).
Local Abbreviation MAX := 0xFFFFFFFE.

(** X1.  As long as the transaction counter is between 0 and 0xFFFFFFFE,
    a read of the producer hands out that value, leaves the counter between
    1 and 0xFFFFFFFE, and touches nothing else; so every id ever handed
    out fits the 32-bit TransactionID field. *)
Theorem transaction_id_in_range (d : dev) (n : nat) :
  0 <= Device.__transaction_id d <= MAX ->
  exists v,
    Device.nth_read n d = Ok v /\ 0 <= v <= MAX /\
    1 <= Device.__transaction_id (Device.after_reads (S n) d) <= MAX /\
    Device.__session (Device.after_reads n d) = Device.__session d /\
    Device.transport (Device.after_reads n d) = Device.transport d.
Proof.
  intros H0.
  assert (Hinv : forall k,
            0 <= Device.__transaction_id (Device.after_reads k d) <= MAX /\
            Device.__session (Device.after_reads k d) = Device.__session d /\
            Device.transport (Device.after_reads k d) = Device.transport d).
  { induction k as [|k [IH1 [IH2 IH3]]].
    - cbn. auto.
    - cbn [Device.after_reads]. rewrite DeviceFacts.transaction_read.
      cbn [snd]. repeat split; try assumption.
      + cbn. destruct (Z.gtb_spec (Device.__transaction_id
                                     (Device.after_reads k d) + 1) MAX); lia.
      + cbn. destruct (Z.gtb_spec (Device.__transaction_id
                                     (Device.after_reads k d) + 1) MAX); lia. }
  destruct (Hinv n) as [Hn [Hs Ht]].
  exists (Device.__transaction_id (Device.after_reads n d)).
  unfold Device.nth_read. cbn [Device.after_reads].
  rewrite DeviceFacts.transaction_read. cbn [fst snd].
  repeat split; try assumption; try lia.
  - cbn. destruct (Z.gtb_spec (Device.__transaction_id
                                 (Device.after_reads n d) + 1) MAX); lia.
  - cbn. destruct (Z.gtb_spec (Device.__transaction_id
                                 (Device.after_reads n d) + 1) MAX); lia.
Qed.

(** X2.  [close_session] hands the transport a CloseSession frame that
    carries the current session counter as SessionID, the next
    transaction id and five zero parameters; it does not itself change the
    session counter, and what the transport answers (or raises) is the
    outcome of the call. *)
Theorem close_session_frame (d : dev) :
  Device.close_session mesg d =
  mesg (mkContainer "OperationCode" (Sym "CloseSession") (Device.__session d)
          (Device.__transaction_id d) [0; 0; 0; 0; 0])
       (Device.mkDevice (Device.__session d)
          (if Device.__transaction_id d + 1 >? MAX
           then 1 else Device.__transaction_id d + 1)
          (Device.transport d)).
Proof.
  unfold Device.close_session, Device.bind at 1 2. unfold Device.gets at 1.
  rewrite DeviceFacts.transaction_read.
  unfold Device.bind, Device.ret, Device.set_transaction_id.
  destruct (mesg _ _) as [[r|e] d']; reflexivity.
Qed.

(** X3.  On the bare [PTPDevice], whose [mesg] is not implemented,
    [with self.session(): body] never runs the body and raises
    [PTPUnimplemented]; the failed attempt still moves the session counter
    up by one and leaves the transaction counter at 2 (one id spent by
    [open_session], one by [close_session]). *)
Theorem bare_device_session
  (body : dev -> Device.completion * dev) (d : dev) :
  Device.with_session (@Device.base_mesg T Resp) body d =
  ([Device.CallOpen; Device.CallClose],
   Device.Raised
     (PTPUnimplemented
        "Please implement PTP no-dataphase command for this transport."),
   Device.mkDevice (Device.__session d + 1) 2 (Device.transport d)).
Proof.
  destruct d as [s t tr]. reflexivity.
Qed.

(** X4.  [FujiX100.session], which only wraps the base [session()] in a
    [with] statement around its own [yield], behaves exactly as the base
    [session()]: the same calls in the same order, the same outcome and
    the same device, for every transport and every body. *)
Theorem fuji_session_is_base_session
  (body : dev -> Device.completion * dev) (d : dev) :
  FujiX100.with_generator (FujiX100.session mesg) body d =
  Device.with_session mesg body d.
Proof.
  unfold FujiX100.with_generator, FujiX100.enter, FujiX100.exit,
    FujiX100.session, Device.with_session.
  cbn [FujiX100.gen_start FujiX100.gen_resume].
  destruct (Device.cm_enter mesg d) as [[t1 [u|e]] d1] eqn:E1.
  - destruct (body d1) as [c d2].
    unfold Device.cm_exit, Device.session_resume, Device.session_finally.
    destruct c; destruct (Device.close_session mesg d2) as [[r|e'] d3];
      reflexivity.
  - unfold Device.cm_enter, Device.session_start in E1.
    destruct (Device.open_session mesg d) as [[r|e0] d0].
    + injection E1 as _ Hr _. discriminate.
    + unfold Device.session_finally in E1.
      destruct (Device.close_session mesg d0) as [[r|e'] d3];
        injection E1 as <- <- <-; reflexivity.
Qed.

End WithTransport.

(** One session on the recording transport. *)
Lemma one_recorded_session (s t : Z) (tr : list Container) :
  snd (Device.with_session Device.recording_mesg
         (fun d' => (Device.Normal, d')) (Device.mkDevice s t tr)) =
  Device.mkDevice (s + 1) 2
    (tr ++ [mkContainer "OperationCode" (Sym "OpenSession") 0 0
              [s + 1; 0; 0; 0; 0];
            mkContainer "OperationCode" (Sym "CloseSession") (s + 1) 1
              [0; 0; 0; 0; 0]]).
Proof.
  cbn. now rewrite <- app_assoc.
Qed.

(** X5.  On a transport that answers every frame, [n] sessions in a row
    (each [with ptp.session(): pass]) leave the session counter [n] higher,
    and put on the wire, for each session in turn, an OpenSession frame
    that announces the new session number with TransactionID 0 and a
    CloseSession frame with that session number and TransactionID 1. *)
Theorem sessions_in_a_row (n : nat) (d : Device.PTPDevice (list Container)) :
  FujiX100.run_sessions n d =
  Device.mkDevice
    (Device.__session d + Z.of_nat n)
    (match n with O => Device.__transaction_id d | S _ => 2 end)
    (Device.transport d ++ FujiX100.session_frames (Device.__session d) n).
Proof.
  induction n as [|n IH].
  - destruct d as [s t tr]. cbn. now rewrite Z.add_0_r, app_nil_r.
  - cbn [FujiX100.run_sessions]. rewrite IH, one_recorded_session.
    cbn [FujiX100.session_frames]. rewrite app_assoc.
    rewrite Nat2Z.inj_succ.
    replace (Device.__session d + Z.succ (Z.of_nat n))
      with (Device.__session d + Z.of_nat n + 1) by lia.
    reflexivity.
Qed.

(** A counter in the middle of its range. *)
Lemma transaction_id_in_range_witness :
  exists v,
    Device.nth_read 2 (Device.mkDevice 7 40 tt) = Ok v /\ 0 <= v <= 0xFFFFFFFE /\
    1 <= Device.__transaction_id
           (Device.after_reads 3 (Device.mkDevice 7 40 tt)) <= 0xFFFFFFFE /\
    Device.__session (Device.after_reads 2 (Device.mkDevice 7 40 tt)) = 7 /\
    Device.transport (Device.after_reads 2 (Device.mkDevice 7 40 tt)) = tt.
Proof.
  exact (transaction_id_in_range unit (Device.mkDevice 7 40 tt) 2
           ltac:(cbn; lia)).
Defined.

End SessionFacts.

(** * More on the fields, tables and datasets *)

Module WireFacts.

Import Codec.

(** ** Byte order selection and the integer fields *)

(** X6.  [_set_endian] fails, with the [PTPError] of [switch_endian],
    exactly when both flags are set; otherwise it stores the constructs
    that the twelve constructors return for the same flags. *)
Theorem set_endian_flags host (little big : bool) :
  match PTP._set_endian host little big with
  | Ok c =>
      little && big = false /\
      PTP.DeviceInfo host little big = Ok (PTP._DeviceInfo c) /\
      PTP.SessionID host little big = Ok (PTP._SessionID c) /\
      PTP.TransactionID host little big = Ok (PTP._TransactionID c) /\
      PTP.Parameter_field little big = Ok (PTP._Parameter c) /\
      PTP.OperationCode host little big [] = Ok (PTP._OperationCode c) /\
      PTP.ResponseCode host little big [] = Ok (PTP._ResponseCode c) /\
      PTP.EventCode host little big [] = Ok (PTP._EventCode c) /\
      PTP.Event host little big = Ok (PTP._Event c) /\
      PTP.Response host little big = Ok (PTP._Response c) /\
      PTP.Operation host little big = Ok (PTP._Operation c) /\
      PTP.PropertyCode host little big [] = Ok (PTP._PropertyCode c) /\
      PTP.ObjectFormatCode host little big [] = Ok (PTP._ObjectFormatCode c)
  | Raise e =>
      little && big = true /\
      e = PTPError "Cannot be both little and big endian..."
  end.
Proof.
  destruct little, big; hnf; repeat split.
Qed.

Lemma id_field_shape host (le be : bool) (c : Construct Z) :
  PTP.SessionID host le be = Ok c \/ PTP.TransactionID host le be = Ok c ->
  exists nm, c = FormatField host (PTP.selected le be) 4 nm.
Proof.
  unfold PTP.SessionID, PTP.TransactionID.
  intros [H | H]; destruct le, be;
    cbn [PTP.switch_endian Bool.eqb negb rbind] in H;
    try discriminate; injection H as <-; eexists; reflexivity.
Qed.

Lemma u32_false_range (z : Z) :
  PTP.u32 z = false -> ~ (0 <= z < 256 ^ Z.of_nat 4).
Proof.
  unfold PTP.u32. intros H [H1 H2]. cbn in H2.
  apply andb_false_iff in H. destruct H as [H | H].
  - apply Z.leb_gt in H. lia.
  - apply Z.ltb_ge in H. lia.
Qed.

Lemma pack_out_of_range host e n z :
  ~ (0 <= z < 256 ^ Z.of_nat n) -> pack host e n z = Raise FieldError.
Proof.
  intros H. unfold pack.
  destruct (Z.leb_spec 0 z); destruct (Z.ltb_spec z (256 ^ Z.of_nat n));
    cbn [andb]; try reflexivity.
  exfalso. apply H. lia.
Qed.

Lemma read_stream_short (n : nat) (stream : list byte) :
  (List.length stream < n)%nat -> _read_stream n stream = Raise FieldError.
Proof.
  intros H. unfold _read_stream.
  apply Nat.ltb_lt in H. now rewrite H.
Qed.

(** X7.  A SessionID or TransactionID construct writes any number from 0
    to 2^32 - 1 on four bytes and reads it back, whatever follows in the
    stream; it refuses any other number, and any stream of fewer than four
    bytes, with [FieldError]. *)
Theorem id_field_codec host (le be : bool) (c : Construct Z) :
  PTP.SessionID host le be = Ok c \/ PTP.TransactionID host le be = Ok c ->
  (forall z, PTP.u32 z = true ->
     exists bs, build c z = Ok bs /\ List.length bs = 4%nat /\
                forall rest, _parse c (bs ++ rest) = Ok (z, rest)) /\
  (forall z, PTP.u32 z = false -> build c z = Raise FieldError) /\
  (forall stream, (List.length stream < 4)%nat ->
     _parse c stream = Raise FieldError).
Proof.
  intros Hc. apply id_field_shape in Hc. destruct Hc as [nm ->].
  split; [|split].
  - intros z Hz. apply CodecFacts.u32_range in Hz.
    destruct (CodecFacts.FormatField_faithful host (PTP.selected le be) 4 nm z Hz)
      as [bs [Hb Hp]].
    exists bs. split; [exact Hb|]. split; [|exact Hp].
    eapply CodecFacts.FormatField_build_length. exact Hb.
  - intros z Hz. unfold build. cbn [_build FormatField].
    now rewrite pack_out_of_range by now apply u32_false_range.
  - intros stream Hs. cbn [_parse FormatField].
    now rewrite read_stream_short.
Qed.

(** X8.  What the flags mean for the four bytes of a SessionID or
    TransactionID: with the little-endian flag the first byte is the least
    significant, with the big-endian flag the most significant, and with
    neither flag the order is the one of the host. *)
Theorem id_field_byte_order host (le be : bool) (c : Construct Z)
  (b0 b1 b2 b3 : byte) (rest : list byte) :
  PTP.SessionID host le be = Ok c \/ PTP.TransactionID host le be = Ok c ->
  _parse c (b0 :: b1 :: b2 :: b3 :: rest) =
  Ok (if (if le then true else if be then false else host)
      then Z_of_byte b0 + 256 * Z_of_byte b1 + 65536 * Z_of_byte b2
           + 16777216 * Z_of_byte b3
      else Z_of_byte b3 + 256 * Z_of_byte b2 + 65536 * Z_of_byte b1
           + 16777216 * Z_of_byte b0,
      rest).
Proof.
  intros Hc. apply id_field_shape in Hc. destruct Hc as [nm ->].
  cbn [_parse FormatField _read_stream List.length Nat.ltb Nat.leb firstn
         skipn].
  unfold unpack.
  destruct le, be, host; cbn [PTP.selected wire_order rev app le_value];
    f_equal; f_equal; lia.
Qed.

(** ** The parameter field *)

Lemma bin_to_int_loop_mod (k : nat) (number s : Z) (acc : list byte) :
  0 <= number -> 0 <= s ->
  bin_to_int_from s (int_to_bin_loop k number acc) =
  bin_to_int_from (s * 2 ^ Z.of_nat k + number mod 2 ^ Z.of_nat k) acc.
Proof.
  revert number s acc. induction k as [|k IH]; intros number s acc Hn Hs.
  - cbn. rewrite Z.mod_1_r. f_equal. lia.
  - cbn [int_to_bin_loop].
    rewrite Nat2Z.inj_succ, Z.pow_succ_r by lia.
    assert (Hp : 0 < 2 ^ Z.of_nat k) by (apply Z.pow_pos_nonneg; lia).
    destruct (Z.eqb_spec number 0) as [E|E].
    + subst number. change (repeat x00 (S k)) with (x00 :: repeat x00 k).
      cbn [app bin_to_int_from _bit_values].
      rewrite CodecFacts.lor_shift_bit by auto.
      rewrite CodecFacts.bin_to_int_zeros by lia.
      rewrite Z.mod_0_l by lia. f_equal. lia.
    + rewrite IH.
      * cbn [bin_to_int_from].
        rewrite CodecFacts.bit_value_of_bit_byte by lia.
        pose proof (Z.mod_pos_bound number 2 ltac:(lia)) as Hb.
        rewrite Z.shiftr_div_pow2 by lia. change (2 ^ 1) with 2.
        pose proof (Z.mod_pos_bound (number / 2) (2 ^ Z.of_nat k) Hp) as Hq.
        rewrite CodecFacts.lor_shift_bit by (try lia; nia).
        rewrite (Z.rem_mul_r number 2 (2 ^ Z.of_nat k)) by lia.
        f_equal. lia.
      * rewrite Z.shiftr_div_pow2 by lia. change (2 ^ 1) with 2.
        apply Z.div_pos; lia.
      * exact Hs.
Qed.

Lemma parameter_field_shape (le be : bool) (c : Construct Z) :
  PTP.Parameter_field le be = Ok c ->
  exists swapped, c = BitField "Parameter" 32 swapped.
Proof.
  unfold PTP.Parameter_field. destruct le, be;
    cbn [PTP.switch_endian Bool.eqb negb]; intros H;
    try discriminate; injection H as <-; eexists; reflexivity.
Qed.

(** X9.  A Parameter construct refuses a negative number with
    [BitIntegerError]; any other number, however large, is written on 32
    one-bit bytes, and reading them gives the number modulo 2^32: bits
    above the 32nd are dropped without an error.  A stream of fewer than
    32 bytes is refused with [FieldError]. *)
Theorem parameter_field_codec (le be : bool) (c : Construct Z) :
  PTP.Parameter_field le be = Ok c ->
  (forall z, z < 0 -> build c z = Raise BitIntegerError) /\
  (forall z, 0 <= z ->
     exists bs, build c z = Ok bs /\ List.length bs = 32%nat /\
                forall rest,
                  _parse c (bs ++ rest) = Ok (z mod 0x100000000, rest)) /\
  (forall stream, (List.length stream < 32)%nat ->
     _parse c stream = Raise FieldError).
Proof.
  intros Hc. apply parameter_field_shape in Hc. destruct Hc as [swapped ->].
  split; [|split].
  - intros z Hz. unfold build. cbn [_build BitField].
    destruct (Z.ltb_spec z 0); [reflexivity | lia].
  - intros z Hz.
    assert (Hlen : List.length (int_to_bin z 32) = 32%nat)
      by apply CodecFacts.int_to_bin_length.
    assert (Hval : bin_to_int (int_to_bin z 32) = Ok (z mod 0x100000000)).
    { unfold bin_to_int, int_to_bin.
      destruct (Z.ltb_spec z 0); [lia|].
      rewrite bin_to_int_loop_mod by lia. reflexivity. }
    set (bits := int_to_bin z 32) in *.
    assert (Hout : List.length (if swapped then swap_bytes bits else bits)
                   = 32%nat).
    { destruct swapped;
        [now apply CodecFacts.swap_bytes_32_length | exact Hlen]. }
    exists (if swapped then swap_bytes bits else bits).
    split; [|split; [exact Hout|]].
    + unfold build. cbn [_build BitField].
      destruct (Z.ltb_spec z 0); [lia|]. fold bits. now rewrite Hout.
    + intros rest. cbn [_parse BitField].
      rewrite <- Hout at 1. rewrite CodecFacts.read_stream_exact.
      destruct swapped.
      * rewrite CodecFacts.swap_bytes_32_involutive by exact Hlen.
        now rewrite Hval.
      * now rewrite Hval.
  - intros stream Hs. cbn [_parse BitField]. now rewrite read_stream_short.
Qed.

(** ** Code tables: entries, raw numbers and vendor entries *)

Lemma tables_exact (t : PTP.code_table) :
  Wellformed.table_exact (PTP.table_entries t) = true.
Proof.
  destruct t; vm_compute; reflexivity.
Qed.

Lemma tables_distinct (t : PTP.code_table) :
  Wellformed.distinct_names (PTP.table_entries t) = true.
Proof.
  destruct t; vm_compute; reflexivity.
Qed.

Lemma table_exact_entry (kw : list (string * Z)) (s : string) (v : Z) :
  Wellformed.table_exact kw = true -> In (s, v) kw ->
  PTP.u16 v = true /\
  dict_get String.eqb s (dict_of_items String.eqb kw) = Some v /\
  dict_get Z.eqb v
    (dict_of_items Z.eqb
       (map (fun kv => (snd kv, fst kv)) (dict_of_items String.eqb kw))) =
  Some s.
Proof.
  unfold Wellformed.table_exact. intros H Hin.
  rewrite forallb_forall in H. specialize (H (s, v) Hin). cbn [fst snd] in H.
  apply andb_prop in H. destruct H as [H H3].
  apply andb_prop in H. destruct H as [H1 H2].
  split; [exact H1|]. split.
  - destruct (dict_get String.eqb s _) as [v'|]; [|discriminate].
    apply Z.eqb_eq in H2. now subst.
  - destruct (dict_get Z.eqb v _) as [s'|]; [|discriminate].
    apply String.eqb_eq in H3. now subst.
Qed.

(** X10.  In each of the five tables as the module defines them, every
    entry's name is encoded as the entry's number and that number is
    decoded as the name; the bare number is encoded to the same two bytes,
    so a number that has an entry comes back from the wire as its name. *)
Theorem code_table_entries host (t : PTP.code_table) (le be : bool)
  (c : Construct code) (s : string) (v : Z) :
  PTP.table_codec host t le be [] = Ok c ->
  In (s, v) (PTP.table_entries t) ->
  build c (Sym s) = Ok (Wellformed.wire16 host le be v) /\
  build c (Num v) = Ok (Wellformed.wire16 host le be v) /\
  forall rest,
    _parse c (Wellformed.wire16 host le be v ++ rest) = Ok (Sym s, rest).
Proof.
  intros Hc Hin. apply CodecFacts.table_codec_shape in Hc.
  destruct Hc as [nm ->]. rewrite app_nil_r.
  destruct (table_exact_entry _ s v (tables_exact t) Hin) as [Hv [Hs Hr]].
  apply CodecFacts.u16_range in Hv.
  destruct (CodecFacts.FormatField_faithful host (PTP.selected le be) 2 nm v Hv)
    as [bs [Hb Hp]].
  assert (Ebs : bs = Wellformed.wire16 host le be v).
  { cbn [_build FormatField] in Hb. rewrite CodecFacts.pack_ok in Hb by exact Hv.
    now injection Hb as <-. }
  subst bs. unfold build. split; [|split].
  - cbn [_build Enum]. unfold mapping_encode. rewrite Hs. cbn [rbind].
    exact Hb.
  - cbn [_build Enum]. unfold mapping_encode. cbn [rbind]. exact Hb.
  - intros rest. cbn [_parse Enum]. rewrite Hp. cbn [rbind].
    unfold mapping_decode. now rewrite Hr.
Qed.

(** X11.  A vendor entry whose name is already that of a canonical entry
    (or is [_default_]) makes the table constructor fail with [TypeError],
    as a keyword given twice. *)
Theorem vendor_keyword_clash host (t : PTP.code_table) (le be : bool)
  (vendor : list (string * Z)) (s : string) (v : Z) :
  le && be = false ->
  In (s, v) vendor ->
  PTP.known_name (PTP.table_entries t) s = true \/ s = "_default_" ->
  PTP.table_codec host t le be vendor = Raise TypeError.
Proof.
  intros Hf Hin Hclash.
  assert (Hk : PTP.keywords (PTP.table_entries t) vendor = Raise TypeError).
  { unfold PTP.keywords.
    assert (E : existsb
                  (fun kv => String.eqb (fst kv) "_default_"
                             || existsb (fun kv' => String.eqb (fst kv') (fst kv))
                                  (PTP.table_entries t)) vendor = true).
    { apply existsb_exists. exists (s, v). split; [exact Hin|]. cbn [fst].
      destruct Hclash as [H | ->].
      - unfold PTP.known_name in H. rewrite H. apply orb_true_r.
      - reflexivity. }
    now rewrite E. }
  destruct t; cbn [PTP.table_codec PTP.table_entries] in *;
    unfold PTP.OperationCode, PTP.ResponseCode, PTP.EventCode,
      PTP.PropertyCode, PTP.ObjectFormatCode;
    rewrite Hk; destruct le, be; try discriminate; reflexivity.
Qed.

Section LastWins.
Context {K V : Type} (eqb : K -> K -> bool).
Hypothesis eqb_eq : forall a b, eqb a b = true <-> a = b.

Lemma dict_set_fresh (k : K) (v : V) (d : list (K * V)) :
  ~ In k (map fst d) -> dict_set eqb k v d = d ++ [(k, v)].
Proof.
  induction d as [|[k1 v1] d IH]; cbn; intros H.
  - reflexivity.
  - destruct (eqb k1 k) eqn:E.
    + apply eqb_eq in E. tauto.
    + rewrite IH by tauto. reflexivity.
Qed.

Lemma fold_set_distinct (items d : list (K * V)) :
  NoDup (map fst (d ++ items)) ->
  fold_left (fun d kv => dict_set eqb (fst kv) (snd kv) d) items d = d ++ items.
Proof.
  revert d. induction items as [|[k v] items IH]; intros d H; cbn.
  - now rewrite app_nil_r.
  - assert (Hfresh : ~ In k (map fst d)).
    { rewrite map_app in H. cbn in H. apply NoDup_remove_2 in H.
      intros Hin. apply H. apply in_or_app. now left. }
    rewrite dict_set_fresh by exact Hfresh.
    rewrite IH; rewrite <- app_assoc; [reflexivity | exact H].
Qed.

Lemma dict_get_distinct (k : K) (v : V) (d : list (K * V)) :
  NoDup (map fst d) -> In (k, v) d -> dict_get eqb k d = Some v.
Proof.
  induction d as [|[k1 v1] d IH]; cbn; intros Hnd Hin; [contradiction|].
  inversion Hnd as [|? ? Hnot Hnd']; subst.
  destruct (eqb k1 k) eqn:E.
  - apply eqb_eq in E. subst k1. destruct Hin as [Hin | Hin].
    + now injection Hin as ->.
    + exfalso. apply Hnot. apply in_map_iff. now exists (k, v).
  - destruct Hin as [Hin | Hin].
    + injection Hin as -> ->.
      assert (eqb k k = true) by now apply eqb_eq. congruence.
    + now apply IH.
Qed.

(** In [dict(items)] a key stands for what the last item with that key
    says. *)
Lemma fold_set_last (k : K) (x : V) (post d : list (K * V)) :
  In (k, x) post ->
  (forall x', In (k, x') post -> x' = x) ->
  dict_get eqb k
    (fold_left (fun d kv => dict_set eqb (fst kv) (snd kv) d) post d) = Some x.
Proof.
  induction post as [|[k' v'] post IH] using rev_ind; intros Hin Huniq.
  - contradiction.
  - rewrite fold_left_app. cbn [fold_left fst snd].
    rewrite (CodecFacts.dict_get_set eqb eqb_eq).
    destruct (eqb k' k) eqn:E.
    + apply eqb_eq in E. subst k'. f_equal. apply Huniq.
      apply in_or_app. right. now left.
    + apply IH.
      * apply in_app_or in Hin. destruct Hin as [Hin | [Hin | []]];
          [exact Hin|].
        injection Hin as -> ->.
        assert (eqb k k = true) by now apply eqb_eq. congruence.
      * intros x' Hx'. apply Huniq. apply in_or_app. now left.
Qed.

End LastWins.

Lemma distinct_names_NoDup (kw : list (string * Z)) :
  Wellformed.distinct_names kw = true -> NoDup (map fst kw).
Proof.
  induction kw as [|[k v] kw IH]; cbn; intros H; [constructor|].
  apply andb_prop in H. destruct H as [H1 H2]. constructor.
  - intros Hin. apply in_map_iff in Hin. destruct Hin as [[k' v'] [E Hin]].
    cbn in E. subst k'. apply negb_true_iff in H1.
    match type of H1 with
    | ?X = false => assert (Ht : X = true)
    end.
    { apply existsb_exists.
      exists (k, v'). split; [exact Hin | apply String.eqb_refl]. }
    congruence.
  - now apply IH.
Qed.

(** What a table constructor that succeeds says about the vendor names. *)
Lemma table_codec_vendor host (t : PTP.code_table) (le be : bool)
  (vendor : list (string * Z)) (c : Construct code) :
  PTP.table_codec host t le be vendor = Ok c ->
  forall kv, In kv vendor ->
    PTP.known_name (PTP.table_entries t) (fst kv) = false.
Proof.
  intros Hc kv Hin.
  assert (Hk : exists kw, PTP.keywords (PTP.table_entries t) vendor = Ok kw).
  { destruct (PTP.keywords (PTP.table_entries t) vendor) as [kw|e] eqn:E;
      [now exists kw|].
    exfalso.
    destruct t; cbn [PTP.table_codec PTP.table_entries] in *;
      unfold PTP.OperationCode, PTP.ResponseCode, PTP.EventCode,
        PTP.PropertyCode, PTP.ObjectFormatCode in Hc;
      rewrite E in Hc; destruct le, be; discriminate. }
  destruct Hk as [kw Hk]. unfold PTP.keywords in Hk.
  destruct (existsb _ vendor) eqn:E; [discriminate|].
  destruct (PTP.known_name (PTP.table_entries t) (fst kv)) eqn:Ek;
    [|reflexivity].
  rewrite <- E. symmetry. apply existsb_exists. exists kv.
  split; [exact Hin|]. unfold PTP.known_name in Ek. rewrite Ek.
  apply orb_true_r.
Qed.

(** X12.  A vendor entry extends a table: its name is encoded as its
    number, and its number is decoded as its name, even when a canonical
    entry has the same number (the vendor entry, coming later among the
    keywords, takes the number over). *)
Theorem vendor_entry_wins host (t : PTP.code_table) (le be : bool)
  (vendor : list (string * Z)) (c : Construct code) (s : string) (v : Z) :
  PTP.table_codec host t le be vendor = Ok c ->
  NoDup (map fst vendor) ->
  In (s, v) vendor ->
  (forall s', In (s', v) vendor -> s' = s) ->
  PTP.u16 v = true ->
  build c (Sym s) = Ok (Wellformed.wire16 host le be v) /\
  forall rest,
    _parse c (Wellformed.wire16 host le be v ++ rest) = Ok (Sym s, rest).
Proof.
  intros Hc Hnd Hin Huniq Hv.
  pose proof (table_codec_vendor host t le be vendor c Hc) as Hfresh.
  apply CodecFacts.table_codec_shape in Hc. destruct Hc as [nm ->].
  set (kw := PTP.table_entries t ++ vendor).
  assert (Hkw : NoDup (map fst kw)).
  { unfold kw. rewrite map_app. apply NoDup_app.
    - apply distinct_names_NoDup, tables_distinct.
    - exact Hnd.
    - intros k Hk1 Hk2. apply in_map_iff in Hk1, Hk2.
      destruct Hk1 as [[k1 v1] [E1 H1]]. destruct Hk2 as [[k2 v2] [E2 H2]].
      cbn in E1, E2. subst k1 k2.
      specialize (Hfresh (k, v2) H2). cbn [fst] in Hfresh.
      assert (Ht : PTP.known_name (PTP.table_entries t) k = true).
      { unfold PTP.known_name. apply existsb_exists. exists (k, v1).
        split; [exact H1 | apply String.eqb_refl]. }
      congruence. }
  assert (Hmap : dict_of_items String.eqb kw = kw).
  { unfold dict_of_items.
    now rewrite (fold_set_distinct String.eqb String.eqb_eq). }
  apply CodecFacts.u16_range in Hv.
  destruct (CodecFacts.FormatField_faithful host (PTP.selected le be) 2 nm v Hv)
    as [bs [Hb Hp]].
  assert (Ebs : bs = Wellformed.wire16 host le be v).
  { cbn [_build FormatField] in Hb. rewrite CodecFacts.pack_ok in Hb by exact Hv.
    now injection Hb as <-. }
  subst bs. unfold build. split.
  - cbn [_build Enum]. unfold mapping_encode. fold kw. rewrite Hmap.
    rewrite (dict_get_distinct String.eqb String.eqb_eq s v kw Hkw)
      by (apply in_or_app; now right).
    cbn [rbind]. exact Hb.
  - intros rest. cbn [_parse Enum]. rewrite Hp. cbn [rbind].
    unfold mapping_decode. fold kw. rewrite Hmap.
    unfold dict_of_items, kw. rewrite map_app, fold_left_app.
    rewrite (fold_set_last Z.eqb Z.eqb_eq v s).
    + reflexivity.
    + apply in_map_iff. now exists (s, v).
    + intros s' Hs'. apply in_map_iff in Hs'.
      destruct Hs' as [[s2 v2] [E H2]]. cbn in E. injection E as -> ->.
      now apply Huniq.
Qed.

(** ** Counted arrays *)

Lemma PTPArray_shape {A} host nm (element : Construct A) (le be : bool)
  (c : Construct (ArrayContainer A)) :
  PTP.PTPArray host nm element le be = Ok c ->
  c = CountedStruct nm (FormatField host (PTP.selected le be) 4 "length")
        element.
Proof.
  unfold PTP.PTPArray. destruct le, be;
    cbn [PTP.switch_endian Bool.eqb negb rbind]; intros H;
    try discriminate; now injection H as <-.
Qed.

Lemma CountedStruct_faithful {A} nm (length_field : Construct Z)
  (element : Construct A) (a : ArrayContainer A) :
  faithful length_field (length_ a) ->
  Z.of_nat (List.length (elements a)) = length_ a ->
  Forall (faithful element) (elements a) ->
  faithful (CountedStruct nm length_field element) a.
Proof.
  intros [b1 [B1 P1]] Hn Hall.
  destruct (CodecFacts.MetaArray_faithful element (length_ a) (elements a)
              Hn Hall) as [b2 [B2 P2]].
  exists (b1 ++ b2). split.
  - cbn [_build CountedStruct]. rewrite B1, B2. reflexivity.
  - intros rest. cbn [_parse CountedStruct].
    rewrite <- app_assoc, P1. cbn [rbind]. rewrite P2. cbn [rbind].
    destruct a; reflexivity.
Qed.

(** X13.  A PTP array whose [length] is a 32-bit number equal to the
    number of its elements, each of which its element construct writes and
    reads back, is itself written (length first, then the elements) and
    read back, whatever follows in the stream. *)
Theorem PTPArray_roundtrip {A} host nm (element : Construct A) (le be : bool)
  (c : Construct (ArrayContainer A)) (a : ArrayContainer A) :
  PTP.PTPArray host nm element le be = Ok c ->
  PTP.u32 (length_ a) = true ->
  Z.of_nat (List.length (elements a)) = length_ a ->
  Forall (faithful element) (elements a) ->
  exists bs, build c a = Ok bs /\
             forall rest, _parse c (bs ++ rest) = Ok (a, rest).
Proof.
  intros Hc Hlen Hn Hall. apply PTPArray_shape in Hc. subst c.
  apply CountedStruct_faithful; try assumption.
  apply CodecFacts.FormatField_faithful, CodecFacts.u32_range, Hlen.
Qed.

(** X14.  The array builder takes the length from the container, not from
    the elements: when the two disagree it raises [ArrayError] (expected
    the length, found the number of elements), and a length that is not a
    32-bit number is refused with [FieldError]. *)
Theorem PTPArray_length_mismatch {A} host nm (element : Construct A)
  (le be : bool) (c : Construct (ArrayContainer A)) (a : ArrayContainer A) :
  PTP.PTPArray host nm element le be = Ok c ->
  (PTP.u32 (length_ a) = true ->
   Z.of_nat (List.length (elements a)) <> length_ a ->
   build c a =
   Raise (ArrayError (length_ a) (Z.of_nat (List.length (elements a))))) /\
  (PTP.u32 (length_ a) = false -> build c a = Raise FieldError).
Proof.
  intros Hc. apply PTPArray_shape in Hc. subst c. split.
  - intros Hlen E.
    destruct (CodecFacts.FormatField_faithful host (PTP.selected le be) 4
                "length" (length_ a) (CodecFacts.u32_range _ Hlen))
      as [b1 [B1 _]].
    unfold build. cbn [_build CountedStruct]. rewrite B1. cbn [rbind].
    cbn [_build MetaArray].
    destruct (Z.eqb_spec (Z.of_nat (List.length (elements a))) (length_ a));
      [contradiction | reflexivity].
  - intros Hlen. unfold build. cbn [_build CountedStruct FormatField].
    now rewrite pack_out_of_range by now apply u32_false_range.
Qed.

(** X15.  Parsing an array whose length field is zero gives the empty
    array and takes exactly the four bytes of the length, for every
    element construct and every selection of byte order. *)
Theorem PTPArray_empty {A} host nm (element : Construct A) (le be : bool)
  (c : Construct (ArrayContainer A)) (rest : list byte) :
  PTP.PTPArray host nm element le be = Ok c ->
  _parse c (x00 :: x00 :: x00 :: x00 :: rest) = Ok (mkArray 0 [], rest).
Proof.
  intros Hc. apply PTPArray_shape in Hc. subst c.
  cbn [_parse CountedStruct FormatField _read_stream List.length Nat.ltb
         Nat.leb firstn skipn rbind].
  assert (E : unpack host (PTP.selected le be) [x00; x00; x00; x00] = 0).
  { destruct le, be, host; reflexivity. }
  rewrite E. reflexivity.
Qed.

Lemma Enum_parse_short host e nm d kw (stream : list byte) :
  (List.length stream < 2)%nat ->
  _parse (Enum (FormatField host e 2 nm) d kw) stream = Raise FieldError.
Proof.
  intros H. cbn [_parse Enum FormatField]. now rewrite read_stream_short.
Qed.

Lemma Enum_parse_total host e nm kw (b1 b2 : byte) (stream : list byte) :
  exists x,
    _parse (Enum (FormatField host e 2 nm) Pass kw) (b1 :: b2 :: stream) =
    Ok (x, stream).
Proof.
  cbn [_parse Enum FormatField _read_stream List.length Nat.ltb Nat.leb
         firstn skipn rbind].
  unfold mapping_decode. destruct (dict_get Z.eqb _ _); eexists; reflexivity.
Qed.

Lemma code_array_truncated host e nm kw (count c : Z) (todo : nat)
  (data : list byte) :
  (List.length data < 2 * todo)%nat ->
  array_parse (Enum (FormatField host e 2 nm) Pass kw) count c todo data =
  Raise (ArrayError count (c + Z.of_nat (List.length data / 2))).
Proof.
  revert c data. induction todo as [|k IH]; intros c data Hlen; [lia|].
  cbn [array_parse].
  destruct data as [|b1 [|b2 data]].
  - rewrite Enum_parse_short by (cbn; lia). cbn. now rewrite Z.add_0_r.
  - rewrite Enum_parse_short by (cbn; lia). cbn. now rewrite Z.add_0_r.
  - destruct (Enum_parse_total host e nm kw b1 b2 data) as [x ->].
    rewrite IH by (cbn in Hlen; lia). cbn [rbind].
    f_equal. f_equal.
    change (List.length (b1 :: b2 :: data)) with (2 + List.length data)%nat.
    replace (2 + List.length data)%nat with (List.length data + 1 * 2)%nat
      by lia.
    rewrite Nat.div_add by lia. lia.
Qed.

(** X16.  An array of codes whose stream ends early is refused as a
    whole: when fewer bytes follow the length field than the announced
    codes need, parsing raises [ArrayError] with the announced number and
    the number of codes that were there. *)
Theorem code_array_cut_short host (t : PTP.code_table) (le be : bool)
  (element : Construct code) nm (le' be' : bool)
  (c : Construct (ArrayContainer code)) (n : Z) (data : list byte) :
  PTP.table_codec host t le be [] = Ok element ->
  PTP.PTPArray host nm element le' be' = Ok c ->
  PTP.u32 n = true ->
  Z.of_nat (List.length data) < 2 * n ->
  _parse c (wire_order host (PTP.selected le' be') (le_bytes 4 n) ++ data) =
  Raise (ArrayError n (Z.of_nat (List.length data / 2))).
Proof.
  intros He Hc Hn Hlen.
  apply CodecFacts.table_codec_shape in He. destruct He as [nm' ->].
  apply PTPArray_shape in Hc. subst c.
  destruct (CodecFacts.FormatField_faithful host (PTP.selected le' be') 4
              "length" n (CodecFacts.u32_range _ Hn)) as [b1 [B1 P1]].
  cbn [_build FormatField] in B1.
  rewrite CodecFacts.pack_ok in B1 by now apply CodecFacts.u32_range.
  injection B1 as <-.
  cbn [_parse CountedStruct]. rewrite P1. cbn [rbind _parse MetaArray].
  rewrite code_array_truncated by lia. reflexivity.
Qed.

(** ** PTP strings *)

Lemma bom_bytes host :
  unit_bytes host 0xFEFF = if host then [xff; xfe] else [xfe; xff].
Proof.
  destruct host; reflexivity.
Qed.

Lemma utf16_decode_bom host (body : list byte) :
  utf16_decode host (unit_bytes host 0xFEFF ++ body) =
  (try! us := units_of_bytes host body in decode_units us).
Proof.
  rewrite bom_bytes. destruct host; reflexivity.
Qed.

Lemma unit_bytes_length little (u : Z) :
  List.length (unit_bytes little u) = 2%nat.
Proof.
  unfold unit_bytes. destruct little; reflexivity.
Qed.

Lemma units_of_unit_bytes little (u : Z) (more : list byte) :
  Wellformed.unit_range u ->
  units_of_bytes little (unit_bytes little u ++ more) =
  (try! us := units_of_bytes little more in Ok (u :: us)).
Proof.
  intros Hu. unfold Wellformed.unit_range in Hu.
  assert (Hlo : 0 <= u mod 256 < 256) by (apply Z.mod_pos_bound; lia).
  assert (Hhi : 0 <= u / 256 < 256).
  { split; [apply Z.div_pos; lia | apply Z.div_lt_upper_bound; lia]. }
  pose proof (Z.div_mod u 256 ltac:(lia)) as Hdm.
  unfold unit_bytes. destruct little; cbn [app units_of_bytes unit_value];
    rewrite !CodecFacts.Z_of_byte_of_Z by assumption;
    replace (u mod 256 + 256 * (u / 256)) with u by lia; reflexivity.
Qed.

Lemma units_of_flat_map little (us : list Z) :
  Forall Wellformed.unit_range us ->
  units_of_bytes little (flat_map (unit_bytes little) us) = Ok us.
Proof.
  induction 1 as [|u us Hu _ IH]; [reflexivity|].
  cbn [flat_map]. rewrite units_of_unit_bytes by exact Hu.
  now rewrite IH.
Qed.

Lemma flat_map_units_length little (us : list Z) :
  Z.of_nat (List.length (flat_map (unit_bytes little) us)) =
  2 * Z.of_nat (List.length us).
Proof.
  induction us as [|u us IH]; [reflexivity|].
  cbn [flat_map]. rewrite length_app, unit_bytes_length.
  cbn [List.length]. lia.
Qed.

Lemma scalar_range (cp : Z) :
  Wellformed.scalar cp = true ->
  0 <= cp <= 0x10FFFF /\
  is_high_surrogate cp = false /\ is_low_surrogate cp = false.
Proof.
  unfold Wellformed.scalar. intros H.
  apply andb_prop in H. destruct H as [H H3].
  apply andb_prop in H. destruct H as [H1 H2].
  apply Z.leb_le in H1, H2. apply negb_true_iff, orb_false_iff in H3.
  tauto.
Qed.

(** The units of one code point, and what reading them gives. *)
Lemma encode_char_units (cp : Z) :
  Wellformed.scalar cp = true ->
  exists us,
    utf16_encode_char cp = Ok us /\
    Z.of_nat (List.length us) = (if cp <? 0x10000 then 1 else 2) /\
    Forall Wellformed.unit_range us /\
    forall more s', decode_units more = Ok s' ->
                    decode_units (us ++ more) = Ok (cp :: s').
Proof.
  intros Hs. destruct (scalar_range cp Hs) as [Hr [Hh Hl]].
  unfold utf16_encode_char. rewrite Hh, Hl. cbn [orb].
  destruct (Z.ltb_spec cp 0); [lia|].
  destruct (Z.ltb_spec 0x10FFFF cp); [lia|]. cbn [orb].
  destruct (Z.ltb_spec cp 0x10000) as [Hsmall|Hbig].
  - exists [cp]. repeat split.
    + constructor; [unfold Wellformed.unit_range; lia | constructor].
    + intros more s' Hm. cbn [app decode_units]. rewrite Hh, Hl, Hm.
      reflexivity.
  - set (v := cp - 0x10000).
    assert (Hv : 0 <= v < 0x100000) by (unfold v; lia).
    assert (Eq : Z.shiftr v 10 = v / 1024)
      by (rewrite Z.shiftr_div_pow2 by lia; reflexivity).
    assert (Em : Z.land v 0x3FF = v mod 1024)
      by (change 0x3FF with (Z.ones 10); rewrite Z.land_ones by lia;
          reflexivity).
    assert (Hq : 0 <= v / 1024 < 1024).
    { split; [apply Z.div_pos; lia | apply Z.div_lt_upper_bound; lia]. }
    assert (Hm : 0 <= v mod 1024 < 1024) by (apply Z.mod_pos_bound; lia).
    pose proof (Z.div_mod v 1024 ltac:(lia)) as Hdm.
    rewrite Eq, Em.
    exists [0xD800 + v / 1024; 0xDC00 + v mod 1024]. repeat split.
    + repeat constructor; unfold Wellformed.unit_range; lia.
    + intros more s' Hmore. cbn [app decode_units].
      assert (E1 : is_high_surrogate (0xD800 + v / 1024) = true).
      { unfold is_high_surrogate. apply andb_true_intro.
        split; [apply Z.leb_le | apply Z.leb_le]; lia. }
      assert (E2 : is_low_surrogate (0xDC00 + v mod 1024) = true).
      { unfold is_low_surrogate. apply andb_true_intro.
        split; [apply Z.leb_le | apply Z.leb_le]; lia. }
      rewrite E1, E2, Hmore. cbn [rbind]. f_equal. f_equal.
      rewrite Z.shiftl_mul_pow2 by lia. change (2 ^ 10) with 1024.
      unfold v in *. lia.
Qed.

Lemma utf16_units_ok (s : text) :
  forallb Wellformed.scalar s = true ->
  exists us,
    utf16_units s = Ok us /\
    Z.of_nat (List.length us) = Wellformed.unit_count s /\
    Forall Wellformed.unit_range us /\
    decode_units us = Ok s.
Proof.
  induction s as [|cp s IH]; intros H.
  - exists []. repeat split. constructor.
  - cbn [forallb] in H. apply andb_prop in H. destruct H as [Hcp Hs].
    destruct (IH Hs) as [more [Hm [Hlen [Hall Hdec]]]].
    destruct (encode_char_units cp Hcp) as [us [Hu [Hul [Hua Hud]]]].
    exists (us ++ more). repeat split.
    + cbn [utf16_units]. rewrite Hu, Hm. reflexivity.
    + rewrite length_app, Nat2Z.inj_add, Hul, Hlen. reflexivity.
    + apply Forall_app. now split.
    + now apply Hud.
Qed.

Lemma PTPString_shape host nm (le be : bool) (c : Construct text) :
  PTP.PTPString host nm le be = Ok c ->
  exists e, c = PascalString host nm (FormatField host e 1 "length") utf16.
Proof.
  unfold PTP.PTPString. destruct le, be;
    cbn [PTP.switch_endian Bool.eqb negb rbind]; intros H;
    try discriminate; injection H as <-; eexists; reflexivity.
Qed.

Lemma length_field_build host e (len : Z) :
  0 <= len < 256 ->
  _build (FormatField host e 1 "length") len = Ok [byte_of_Z len].
Proof.
  intros H. cbn [_build FormatField].
  rewrite CodecFacts.pack_ok by (cbn; lia).
  cbn [le_bytes]. rewrite Z.mod_small by lia.
  destruct e; [| |destruct host]; reflexivity.
Qed.

Lemma length_field_overflow host e (len : Z) :
  255 < len -> _build (FormatField host e 1 "length") len = Raise FieldError.
Proof.
  intros H. cbn [_build FormatField].
  rewrite pack_out_of_range; [reflexivity|]. cbn. lia.
Qed.

(** What the UTF-16 encoder makes of a text it accepts. *)
Lemma utf16_encode_ok host (s : text) :
  forallb Wellformed.scalar s = true ->
  exists us,
    utf16_encode host s =
    Ok (unit_bytes host 0xFEFF ++ flat_map (unit_bytes host) us) /\
    Z.of_nat (List.length
                (unit_bytes host 0xFEFF ++ flat_map (unit_bytes host) us)) =
    Wellformed.encoded_size s /\
    Forall Wellformed.unit_range us /\ decode_units us = Ok s.
Proof.
  intros H. destruct (utf16_units_ok s H) as [us [Hu [Hlen [Hall Hdec]]]].
  exists us. repeat split; try assumption.
  - unfold utf16_encode. now rewrite Hu.
  - rewrite length_app, Nat2Z.inj_add, unit_bytes_length,
      flat_map_units_length, Hlen.
    unfold Wellformed.encoded_size. lia.
Qed.

Lemma PascalString_faithful host nm e (s : text) :
  Wellformed.wf_text s = true ->
  faithful (PascalString host nm (FormatField host e 1 "length") utf16) s.
Proof.
  intros Hwf. unfold Wellformed.wf_text in Hwf.
  apply andb_prop in Hwf. destruct Hwf as [Hs Hsize].
  apply Z.leb_le in Hsize.
  destruct (utf16_encode_ok host s Hs) as [us [He [Hlen [Hall Hdec]]]].
  set (data := unit_bytes host 0xFEFF ++ flat_map (unit_bytes host) us) in *.
  exists (byte_of_Z (Z.of_nat (List.length data)) :: data). split.
  - cbn [_build PascalString]. rewrite He. cbn [rbind].
    rewrite length_field_build by lia. reflexivity.
  - intros rest.
    cbn [_parse PascalString FormatField app].
    cbn [_read_stream List.length Nat.ltb Nat.leb firstn skipn rbind].
    assert (Hv : unpack host e [byte_of_Z (Z.of_nat (List.length data))] =
                 Z.of_nat (List.length data)).
    { unfold unpack.
      replace (wire_order host e [byte_of_Z (Z.of_nat (List.length data))])
        with [byte_of_Z (Z.of_nat (List.length data))]
        by (destruct e; [| |destruct host]; reflexivity).
      cbn [le_value]. rewrite CodecFacts.Z_of_byte_of_Z by lia. lia. }
    rewrite Hv, Nat2Z.id, CodecFacts.read_stream_exact. cbn [rbind].
    unfold data. rewrite utf16_decode_bom, units_of_flat_map by exact Hall.
    cbn [rbind]. now rewrite Hdec.
Qed.

(** X17.  A text of code points that UTF-16 can encode, and short enough
    for the length byte (at most 255 bytes, the two bytes of the mark
    included), is written by a PTP string construct and read back, on
    either kind of host and whatever follows in the stream. *)
Theorem PTPString_roundtrip host nm (le be : bool) (c : Construct text)
  (s : text) :
  PTP.PTPString host nm le be = Ok c ->
  Wellformed.wf_text s = true ->
  exists bs, build c s = Ok bs /\
             forall rest, _parse c (bs ++ rest) = Ok (s, rest).
Proof.
  intros Hc Hwf. destruct (PTPString_shape host nm le be c Hc) as [e ->].
  now apply PascalString_faithful.
Qed.

Lemma utf16_units_reject (s : text) :
  forallb Wellformed.scalar s = false ->
  utf16_units s = Raise UnicodeEncodeError.
Proof.
  induction s as [|cp s IH]; cbn [forallb]; intros H; [discriminate|].
  cbn [utf16_units].
  destruct (Wellformed.scalar cp) eqn:Ecp.
  - cbn [andb] in H.
    destruct (encode_char_units cp Ecp) as [us [Hu _]].
    rewrite Hu. cbn [rbind]. now rewrite IH.
  - unfold Wellformed.scalar in Ecp. unfold utf16_encode_char.
    destruct (Z.ltb_spec cp 0); [reflexivity|].
    destruct (Z.ltb_spec 0x10FFFF cp); [reflexivity|]. cbn [orb].
    destruct (is_high_surrogate cp || is_low_surrogate cp) eqn:Es;
      [reflexivity|].
    exfalso.
    destruct (Z.leb_spec 0 cp); [|lia].
    destruct (Z.leb_spec cp 0x10FFFF); [|lia].
    cbn in Ecp. discriminate.
Qed.

(** X18.  What a PTP string construct writes: the length byte counts the
    BYTES that follow, the byte-order mark included (2 + 2 for each UTF-16
    unit).  A text that needs more than 255 bytes (more than 126 units) is
    refused with [FieldError], and a text with a code point that is a
    surrogate or lies outside Unicode with [UnicodeEncodeError]. *)
Theorem PTPString_build_cases host nm (le be : bool) (c : Construct text)
  (s : text) :
  PTP.PTPString host nm le be = Ok c ->
  (Wellformed.wf_text s = true ->
   exists data,
     build c s = Ok (byte_of_Z (Wellformed.encoded_size s) :: data) /\
     Z.of_nat (List.length data) = Wellformed.encoded_size s /\
     firstn 2 data = if host then [xff; xfe] else [xfe; xff]) /\
  (forallb Wellformed.scalar s = true ->
   255 < Wellformed.encoded_size s -> build c s = Raise FieldError) /\
  (forallb Wellformed.scalar s = false ->
   build c s = Raise UnicodeEncodeError).
Proof.
  intros Hc. destruct (PTPString_shape host nm le be c Hc) as [e ->].
  unfold build. cbn [_build PascalString]. split; [|split].
  - intros Hwf. unfold Wellformed.wf_text in Hwf.
    apply andb_prop in Hwf. destruct Hwf as [Hs Hsize].
    apply Z.leb_le in Hsize.
    destruct (utf16_encode_ok host s Hs) as [us [He [Hlen _]]].
    rewrite He. cbn [rbind]. rewrite Hlen.
    assert (Hpos : 0 <= Wellformed.encoded_size s) by (rewrite <- Hlen; lia).
    rewrite length_field_build by lia.
    eexists. split; [reflexivity|]. split; [exact Hlen|].
    rewrite bom_bytes. destruct host; reflexivity.
  - intros Hs Hsize.
    destruct (utf16_encode_ok host s Hs) as [us [He [Hlen _]]].
    rewrite He. cbn [rbind]. rewrite Hlen.
    now rewrite length_field_overflow.
  - intros Hs. unfold utf16_encode. now rewrite utf16_units_reject.
Qed.

Lemma units_of_bytes_odd little (data : list byte) :
  (Nat.odd (List.length data) = true ->
   units_of_bytes little data = Raise UnicodeDecodeError) /\
  (forall b, Nat.odd (List.length (b :: data)) = true ->
             units_of_bytes little (b :: data) = Raise UnicodeDecodeError).
Proof.
  induction data as [|a data [IH1 IH2]].
  - split; [discriminate | reflexivity].
  - split; [apply IH2|].
    intros b H. cbn [units_of_bytes].
    change (Nat.odd (List.length (b :: a :: data)))
      with (Nat.odd (S (S (List.length data)))) in H.
    rewrite Nat.odd_succ_succ in H. now rewrite IH1.
Qed.

(** The decoder looks at the stream it is given, or at what follows a
    two-byte mark. *)
Lemma utf16_decode_cases host (data : list byte) :
  exists little body,
    utf16_decode host data =
    (try! us := units_of_bytes little body in decode_units us) /\
    (body = data \/ exists b1 b2, data = b1 :: b2 :: body).
Proof.
  destruct data as [|b1 [|b2 rest]].
  - exists host, []. split; [reflexivity | now left].
  - exists host, [b1]. split; [destruct b1; reflexivity | now left].
  - destruct b1;
      try (exists host; eexists; split; [reflexivity | now left]);
      destruct b2;
      try (exists host; eexists; split; [reflexivity | now left]).
    + exists false, rest. split; [reflexivity | right; eauto].
    + exists true, rest. split; [reflexivity | right; eauto].
Qed.

(** X19.  A PTP string whose length byte is odd is never read: the
    construct takes that many bytes and the UTF-16 decoder refuses them
    with [UnicodeDecodeError], whatever the bytes are. *)
Theorem PTPString_odd_length host nm (le be : bool) (c : Construct text)
  (data rest : list byte) :
  PTP.PTPString host nm le be = Ok c ->
  Nat.odd (List.length data) = true ->
  Z.of_nat (List.length data) < 256 ->
  _parse c (byte_of_Z (Z.of_nat (List.length data)) :: data ++ rest) =
  Raise UnicodeDecodeError.
Proof.
  intros Hc Hodd Hlen.
  rewrite (CodecFacts.PTPString_parse host nm le be c data rest Hc Hlen).
  destruct (utf16_decode_cases host data) as [little [body [E Hb]]].
  rewrite E.
  assert (Hbody : Nat.odd (List.length body) = true).
  { destruct Hb as [-> | [b1 [b2 ->]]]; [exact Hodd|].
    change (List.length (b1 :: b2 :: body))
      with (S (S (List.length body))) in Hodd.
    now rewrite Nat.odd_succ_succ in Hodd. }
  now rewrite (proj1 (units_of_bytes_odd little body) Hbody).
Qed.

(** ** The device description *)

Lemma all_tables_roundtrip (t : PTP.code_table) :
  PTP.table_roundtrips (PTP.table_entries t) = true.
Proof.
  destruct t; vm_compute; reflexivity.
Qed.

Lemma wf_array_faithful host e e' nm nm' (t : PTP.code_table)
  (a : ArrayContainer code) :
  Wellformed.wf_array (PTP.table_entries t) a = true ->
  faithful
    (CountedStruct nm (FormatField host e 4 "length")
       (Enum (FormatField host e' 2 nm') Pass (PTP.table_entries t))) a.
Proof.
  unfold Wellformed.wf_array. intros H.
  apply andb_prop in H. destruct H as [H H3].
  apply andb_prop in H. destruct H as [H1 H2].
  apply Z.eqb_eq in H2.
  apply CountedStruct_faithful.
  - apply CodecFacts.FormatField_faithful, CodecFacts.u32_range, H1.
  - exact H2.
  - apply Forall_forall. intros x Hx. rewrite forallb_forall in H3.
    apply CodecFacts.Enum_faithful; [apply all_tables_roundtrip | now apply H3].
Qed.

Lemma DeviceInfoStruct_faithful nm
  (c1 c2 c3 : Construct Z) (c4 : Construct text) (c5 : Construct Z)
  (c6 c7 c8 c9 : Construct (ArrayContainer code))
  (c10 c11 c12 c13 : Construct text) (i : DeviceInfoContainer) :
  faithful c1 (StandardVersion i) -> faithful c2 (VendorExtensionID i) ->
  faithful c3 (VendorExtensionVersion i) ->
  faithful c4 (VendorExtensionDesc i) -> faithful c5 (FunctionalMode i) ->
  faithful c6 (OperationSupported i) -> faithful c7 (EventsSupported i) ->
  faithful c8 (DevicePropertiesSupported i) ->
  faithful c9 (CaptureFormats i) ->
  faithful c10 (Manufacturer i) -> faithful c11 (Model i) ->
  faithful c12 (DeviceVersion i) -> faithful c13 (SerialNumber i) ->
  faithful (DeviceInfoStruct nm c1 c2 c3 c4 c5 c6 c7 c8 c9 c10 c11 c12 c13) i.
Proof.
  intros [b1 [B1 P1]] [b2 [B2 P2]] [b3 [B3 P3]] [b4 [B4 P4]] [b5 [B5 P5]]
    [b6 [B6 P6]] [b7 [B7 P7]] [b8 [B8 P8]] [b9 [B9 P9]] [b10 [B10 P10]]
    [b11 [B11 P11]] [b12 [B12 P12]] [b13 [B13 P13]].
  exists (b1 ++ b2 ++ b3 ++ b4 ++ b5 ++ b6 ++ b7 ++ b8 ++ b9 ++ b10 ++ b11
            ++ b12 ++ b13).
  split.
  - cbn [_build DeviceInfoStruct].
    rewrite B1, B2, B3, B4, B5, B6, B7, B8, B9, B10, B11, B12, B13.
    reflexivity.
  - intros rest. cbn [_parse DeviceInfoStruct].
    rewrite <- !app_assoc.
    rewrite P1; cbn [rbind]. rewrite P2; cbn [rbind].
    rewrite P3; cbn [rbind]. rewrite P4; cbn [rbind].
    rewrite P5; cbn [rbind]. rewrite P6; cbn [rbind].
    rewrite P7; cbn [rbind]. rewrite P8; cbn [rbind].
    rewrite P9; cbn [rbind]. rewrite P10; cbn [rbind].
    rewrite P11; cbn [rbind]. rewrite P12; cbn [rbind].
    rewrite P13; cbn [rbind].
    destruct i; reflexivity.
Qed.

(** The construct that [DeviceInfo] returns. *)
Lemma DeviceInfo_shape host (le be : bool) (c : Construct DeviceInfoContainer) :
  PTP.DeviceInfo host le be = Ok c ->
  let text_field nm :=
    PascalString host nm (FormatField host NativeEndian 1 "length") utf16 in
  let codes nm nm' kw :=
    CountedStruct nm (FormatField host NativeEndian 4 "length")
      (Enum (FormatField host (PTP.selected le be) 2 nm') Pass kw) in
  c = DeviceInfoStruct "DeviceInfo"
        (FormatField host LittleEndian 2 "StandardVersion")
        (FormatField host LittleEndian 4 "VendorExtensionID")
        (FormatField host LittleEndian 2 "VendorExtensionVersion")
        (text_field "VendorExtensionDesc")
        (FormatField host LittleEndian 2 "FunctionalMode")
        (codes "OperationSupported" "OperationCode" PTP.OperationCode_entries)
        (codes "EventsSupported" "EventCode" PTP.EventCode_entries)
        (codes "DevicePropertiesSupported" "PropertyCode"
           PTP.PropertyCode_entries)
        (codes "CaptureFormats" "ObjectFormatCode"
           PTP.ObjectFormatCode_entries)
        (text_field "Manufacturer") (text_field "Model")
        (text_field "DeviceVersion") (text_field "SerialNumber").
Proof.
  unfold PTP.DeviceInfo, PTP.PTPString, PTP.PTPArray, PTP.OperationCode,
    PTP.EventCode, PTP.PropertyCode, PTP.ObjectFormatCode, PTP.keywords.
  destruct le, be;
    cbn [PTP.switch_endian Bool.eqb negb rbind existsb];
    try discriminate;
    rewrite !app_nil_r; intros H; injection H as <-; reflexivity.
Qed.

(** X20.  A well-formed device description (16- and 32-bit numbers in
    their fields, texts that a PTP string can hold, arrays whose length
    matches their well-formed codes) is written by a [DeviceInfo]
    construct and read back by it, for every selection of byte order and
    on either kind of host. *)
Theorem DeviceInfo_roundtrip host (le be : bool)
  (c : Construct DeviceInfoContainer) (i : DeviceInfoContainer) :
  PTP.DeviceInfo host le be = Ok c ->
  Wellformed.wf_info i = true ->
  exists bs, build c i = Ok bs /\ parse c bs = Ok i.
Proof.
  intros Hc Hwf. apply DeviceInfo_shape in Hc. cbv zeta in Hc. subst c.
  unfold Wellformed.wf_info in Hwf.
  do 12 (apply andb_prop in Hwf;
         let H := fresh "W" in destruct Hwf as [Hwf H]).
  match goal with
  | |- exists bs, build ?c i = Ok bs /\ _ =>
      assert (F : faithful c i)
  end.
  { apply DeviceInfoStruct_faithful;
      try (apply PascalString_faithful; assumption);
      try (apply CodecFacts.FormatField_faithful, CodecFacts.u16_range;
           assumption);
      try (apply CodecFacts.FormatField_faithful, CodecFacts.u32_range;
           assumption).
    - apply (wf_array_faithful host _ _ _ _ PTP.OperationTable). assumption.
    - apply (wf_array_faithful host _ _ _ _ PTP.EventTable). assumption.
    - apply (wf_array_faithful host _ _ _ _ PTP.PropertyTable). assumption.
    - apply (wf_array_faithful host _ _ _ _ PTP.ObjectFormatTable).
      assumption. }
  destruct F as [bs [Hb Hp]]. exists bs. split; [exact Hb|].
  unfold parse. rewrite <- (app_nil_r bs), Hp. reflexivity.
Qed.

Lemma little_endian_build host n nm z bs :
  _build (FormatField host LittleEndian n nm) z = Ok bs -> bs = le_bytes n z.
Proof.
  cbn [_build FormatField]. unfold pack.
  destruct (_ && _); [|discriminate]. cbn [wire_order].
  intros H. now injection H as <-.
Qed.

(** X21.  Whatever byte order is selected, the first eight bytes that a
    [DeviceInfo] construct writes are the standard version, the vendor
    extension id and the vendor extension version least significant byte
    first: the selection does not reach these fields. *)
Theorem DeviceInfo_header_little_endian host (le be : bool)
  (c : Construct DeviceInfoContainer) (i : DeviceInfoContainer)
  (bs : list byte) :
  PTP.DeviceInfo host le be = Ok c ->
  build c i = Ok bs ->
  firstn 8 bs =
  le_bytes 2 (StandardVersion i) ++ le_bytes 4 (VendorExtensionID i)
  ++ le_bytes 2 (VendorExtensionVersion i).
Proof.
  intros Hc. apply DeviceInfo_shape in Hc. cbv zeta in Hc. subst c.
  unfold build. cbn [_build DeviceInfoStruct].
  destruct (_build (FormatField host LittleEndian 2 "StandardVersion") _)
    as [b1|] eqn:E1; [|discriminate].
  cbn [rbind].
  destruct (_build (FormatField host LittleEndian 4 "VendorExtensionID") _)
    as [b2|] eqn:E2; [|discriminate].
  cbn [rbind].
  destruct (_build (FormatField host LittleEndian 2 "VendorExtensionVersion") _)
    as [b3|] eqn:E3; [|discriminate].
  cbn [rbind].
  apply little_endian_build in E1, E2, E3. subst b1 b2 b3.
  repeat match goal with
         | |- rbind ?m _ = Ok _ -> _ =>
             destruct m; [cbn [rbind] | discriminate]
         end.
  intros H. injection H as <-.
  reflexivity.
Qed.

(** ** How much of the stream a frame takes *)

Lemma read_stream_consumes (n : nat) (stream data rest : list byte) :
  _read_stream n stream = Ok (data, rest) ->
  List.length stream = (n + List.length rest)%nat.
Proof.
  unfold _read_stream.
  destruct (Nat.ltb_spec (List.length stream) n) as [Hlt|Hge]; [discriminate|].
  intros H. injection H as _ <-. rewrite length_skipn. lia.
Qed.

Lemma FormatField_parse_consumes host e n nm stream z rest :
  _parse (FormatField host e n nm) stream = Ok (z, rest) ->
  List.length stream = (n + List.length rest)%nat.
Proof.
  cbn [_parse FormatField].
  destruct (_read_stream n stream) as [[data rest']|] eqn:E; [|discriminate].
  intros H. injection H as _ <-. eapply read_stream_consumes. exact E.
Qed.

Lemma Enum_parse_consumes host e n nm d kw stream x rest :
  _parse (Enum (FormatField host e n nm) d kw) stream = Ok (x, rest) ->
  List.length stream = (n + List.length rest)%nat.
Proof.
  cbn [_parse Enum].
  destruct (_parse (FormatField host e n nm) stream) as [[v r]|] eqn:E;
    [|discriminate].
  cbn [rbind]. destruct (mapping_decode _ d v); [|discriminate].
  cbn [rbind]. intros H. injection H as _ <-.
  eapply FormatField_parse_consumes. exact E.
Qed.

Lemma BitField_parse_consumes nm n swapped stream z rest :
  _parse (BitField nm n swapped) stream = Ok (z, rest) ->
  List.length stream = (n + List.length rest)%nat.
Proof.
  cbn [_parse BitField].
  destruct (_read_stream n stream) as [[data rest']|] eqn:E; [|discriminate].
  destruct (bin_to_int _); [|discriminate].
  intros H. injection H as _ <-. eapply read_stream_consumes. exact E.
Qed.

Lemma array_parse_consumes {A} (subcon : Construct A) (m : nat)
  (count c : Z) (todo : nat) (stream : list byte) xs rest :
  (forall st x r, _parse subcon st = Ok (x, r) ->
                  List.length st = (m + List.length r)%nat) ->
  array_parse subcon count c todo stream = Ok (xs, rest) ->
  List.length stream = (m * todo + List.length rest)%nat.
Proof.
  intros Hm. revert c stream xs rest.
  induction todo as [|k IH]; intros c stream xs rest; cbn [array_parse].
  - intros H. injection H as _ <-. lia.
  - destruct (_parse subcon stream) as [[x r]|e] eqn:E.
    + destruct (array_parse subcon count (c + 1) k r) as [[ys r']|] eqn:E';
        [|discriminate].
      cbn [rbind]. intros H. injection H as _ <-.
      apply Hm in E. apply IH in E'. lia.
    + destruct (is_ConstructError e); discriminate.
Qed.

(** X22.  A frame parser that succeeds has taken exactly the frame's
    fixed size from the stream (ten header bytes and 32 bytes for each of
    the kind's parameters) and hands back the rest; a stream shorter than
    that is refused, never read in part. *)
Theorem frame_parse_consumes host (k : PTP.frame_kind) (le be : bool)
  (c : Construct Container) :
  PTP.frame_codec host k le be = Ok c ->
  (forall data f rest,
     _parse c data = Ok (f, rest) ->
     Z.of_nat (List.length data) =
     10 + 32 * PTP.frame_count k + Z.of_nat (List.length rest)) /\
  (forall data,
     Z.of_nat (List.length data) < 10 + 32 * PTP.frame_count k ->
     exists e, parse c data = Raise e).
Proof.
  intros Hc. apply CodecFacts.frame_codec_shape in Hc.
  destruct Hc as [nm [swapped ->]].
  assert (Hsize : forall data f rest,
            _parse
              (FrameStruct nm
                 (Enum (FormatField host (PTP.selected le be) 2
                          (PTP.frame_key k)) Pass (PTP.frame_entries k))
                 (FormatField host (PTP.selected le be) 4 "SessionID")
                 (FormatField host (PTP.selected le be) 4 "TransactionID")
                 (MetaArray (BitField "Parameter" 32 swapped)
                    (PTP.frame_count k))) data = Ok (f, rest) ->
            Z.of_nat (List.length data) =
            10 + 32 * PTP.frame_count k + Z.of_nat (List.length rest)).
  { intros data f rest. cbn [_parse FrameStruct].
    destruct (_parse (Enum _ _ _) data) as [[x s1]|] eqn:E1; [|discriminate].
    cbn [rbind].
    destruct (_parse (FormatField _ _ _ "SessionID") s1) as [[sid s2]|] eqn:E2;
      [|discriminate].
    cbn [rbind].
    destruct (_parse (FormatField _ _ _ "TransactionID") s2)
      as [[tid s3]|] eqn:E3; [|discriminate].
    cbn [rbind].
    destruct (_parse (MetaArray _ _) s3) as [[ps s4]|] eqn:E4; [|discriminate].
    cbn [rbind]. intros H. injection H as _ <-.
    apply Enum_parse_consumes in E1.
    apply FormatField_parse_consumes in E2, E3.
    cbn [_parse MetaArray] in E4.
    apply (array_parse_consumes _ 32) in E4;
      [|intros st x' r; apply BitField_parse_consumes].
    destruct k; cbn [PTP.frame_count] in *;
      [change (Z.to_nat 5) with 5%nat in E4
      |change (Z.to_nat 5) with 5%nat in E4
      |change (Z.to_nat 3) with 3%nat in E4]; lia. }
  split; [exact Hsize|].
  intros data Hshort. unfold parse.
  destruct (_parse _ data) as [[f rest]|e] eqn:E.
  - apply Hsize in E. lia.
  - now exists e.
Qed.

(** ** The statements above on concrete inputs *)

(** A big-endian SessionID refuses 2^32. *)
Lemma id_field_codec_witness :
  exists c,
    PTP.SessionID true false true = Ok c /\
    build c 0x100000000 = Raise FieldError.
Proof.
  eexists. split; [reflexivity|].
  exact (proj1 (proj2 (id_field_codec true false true _ (or_introl eq_refl)))
           0x100000000 eq_refl).
Defined.

(** The bytes 01 02 03 04 as a little-endian TransactionID. *)
Lemma id_field_byte_order_witness :
  exists c,
    PTP.TransactionID true true false = Ok c /\
    _parse c [x01; x02; x03; x04] = Ok (0x04030201, []).
Proof.
  eexists. split; [reflexivity|].
  exact (id_field_byte_order true true false _ x01 x02 x03 x04 []
           (or_intror eq_refl)).
Defined.

(** A negative parameter. *)
Lemma parameter_field_codec_witness :
  exists c,
    PTP.Parameter_field false true = Ok c /\
    build c (-1) = Raise BitIntegerError.
Proof.
  eexists. split; [reflexivity|].
  exact (proj1 (parameter_field_codec false true _ eq_refl) (-1)
           ltac:(lia)).
Defined.

(** BatteryLevel in the little-endian property table. *)
Lemma code_table_entries_witness :
  exists c,
    PTP.PropertyCode true true false [] = Ok c /\
    build c (Sym "BatteryLevel") = Ok [x01; x50] /\
    build c (Num 0x5001) = Ok [x01; x50] /\
    forall rest, _parse c ([x01; x50] ++ rest) = Ok (Sym "BatteryLevel", rest).
Proof.
  eexists. split; [reflexivity|].
  exact (code_table_entries true PTP.PropertyTable true false _
           "BatteryLevel" 0x5001 eq_refl (or_intror (or_introl eq_refl))).
Defined.

(** A vendor operation named like a canonical one. *)
Lemma vendor_keyword_clash_witness :
  PTP.OperationCode true true false [("GetObject", 0x9999)] = Raise TypeError.
Proof.
  exact (vendor_keyword_clash true PTP.OperationTable true false
           [("GetObject", 0x9999)] "GetObject" 0x9999
           eq_refl (or_introl eq_refl) (or_introl eq_refl)).
Defined.

(** A vendor operation that takes over the number of GetDeviceInfo. *)
Lemma vendor_entry_wins_witness :
  exists c,
    PTP.OperationCode true false true [("FujiConfig", 0x1001)] = Ok c /\
    build c (Sym "FujiConfig") = Ok [x10; x01] /\
    forall rest, _parse c ([x10; x01] ++ rest) = Ok (Sym "FujiConfig", rest).
Proof.
  eexists. split; [reflexivity|].
  exact (vendor_entry_wins true PTP.OperationTable false true
           [("FujiConfig", 0x1001)] _ "FujiConfig" 0x1001 eq_refl
           ltac:(repeat constructor; intros [])
           (or_introl eq_refl)
           ltac:(intros s' [E | []]; now injection E)
           eq_refl).
Defined.

(** Two supported operations, one of them a vendor code. *)
Lemma PTPArray_roundtrip_witness :
  exists e c,
    PTP.OperationCode true true false [] = Ok e /\
    PTP.PTPArray true "OperationSupported" e false false = Ok c /\
    exists bs,
      build c (mkArray 2 [Sym "GetDeviceInfo"; Num 0x9001]) = Ok bs /\
      forall rest,
        _parse c (bs ++ rest) =
        Ok (mkArray 2 [Sym "GetDeviceInfo"; Num 0x9001], rest).
Proof.
  eexists. eexists. split; [reflexivity|]. split; [reflexivity|].
  refine (PTPArray_roundtrip true "OperationSupported" _ false false _
            (mkArray 2 [Sym "GetDeviceInfo"; Num 0x9001])
            eq_refl eq_refl eq_refl _).
  repeat constructor;
    apply (CodecFacts.Enum_faithful true LittleEndian "OperationCode"
             (PTP.OperationCode_entries ++ []));
    reflexivity.
Defined.

(** A length of three over one element. *)
Lemma PTPArray_length_mismatch_witness :
  exists e c,
    PTP.OperationCode true true false [] = Ok e /\
    PTP.PTPArray true "OperationSupported" e false false = Ok c /\
    build c (mkArray 3 [Sym "GetDeviceInfo"]) = Raise (ArrayError 3 1).
Proof.
  eexists. eexists. split; [reflexivity|]. split; [reflexivity|].
  exact (proj1 (PTPArray_length_mismatch true "OperationSupported" _ false
                  false _ (mkArray 3 [Sym "GetDeviceInfo"]) eq_refl)
           eq_refl ltac:(discriminate)).
Defined.

(** An empty array followed by one more byte. *)
Lemma PTPArray_empty_witness :
  exists e c,
    PTP.EventCode true false true [] = Ok e /\
    PTP.PTPArray true "EventsSupported" e false false = Ok c /\
    _parse c [x00; x00; x00; x00; xff] = Ok (mkArray 0 [], [xff]).
Proof.
  eexists. eexists. split; [reflexivity|]. split; [reflexivity|].
  exact (PTPArray_empty true "EventsSupported" _ false false _ [xff] eq_refl).
Defined.

(** Two codes announced, one and a half present. *)
Lemma code_array_cut_short_witness :
  exists e c,
    PTP.OperationCode true false true [] = Ok e /\
    PTP.PTPArray true "OperationSupported" e false false = Ok c /\
    _parse c [x02; x00; x00; x00; x10; x01; x10] = Raise (ArrayError 2 1).
Proof.
  eexists. eexists. split; [reflexivity|]. split; [reflexivity|].
  exact (code_array_cut_short true PTP.OperationTable false true _
           "OperationSupported" false false _ 2 [x10; x01; x10]
           eq_refl eq_refl eq_refl ltac:(cbn; lia)).
Defined.

(** A letter and a code point outside the basic plane. *)
Lemma PTPString_roundtrip_witness :
  exists c,
    PTP.PTPString true "Model" false false = Ok c /\
    exists bs, build c [0x58; 0x1F4F7] = Ok bs /\
               forall rest, _parse c (bs ++ rest) = Ok ([0x58; 0x1F4F7], rest).
Proof.
  eexists. split; [reflexivity|].
  exact (PTPString_roundtrip true "Model" false false _ [0x58; 0x1F4F7]
           eq_refl eq_refl).
Defined.

(** A lone surrogate. *)
Lemma PTPString_build_cases_witness :
  exists c,
    PTP.PTPString true "Model" false false = Ok c /\
    build c [0xD800] = Raise UnicodeEncodeError.
Proof.
  eexists. split; [reflexivity|].
  exact (proj2 (proj2 (PTPString_build_cases true "Model" false false _
                         [0xD800] eq_refl)) eq_refl).
Defined.

(** A length byte of one. *)
Lemma PTPString_odd_length_witness :
  exists c,
    PTP.PTPString true "Model" false false = Ok c /\
    _parse c [x01; x41] = Raise UnicodeDecodeError.
Proof.
  eexists. split; [reflexivity|].
  exact (PTPString_odd_length true "Model" false false _ [x41] []
           eq_refl eq_refl ltac:(cbn; lia)).
Defined.

(** A description with texts and vendor codes, big-endian. *)
Lemma DeviceInfo_roundtrip_witness :
  exists c,
    PTP.DeviceInfo true false true = Ok c /\
    exists bs, build c Wellformed.fuji_info = Ok bs /\
               parse c bs = Ok Wellformed.fuji_info.
Proof.
  eexists. split; [reflexivity|].
  exact (DeviceInfo_roundtrip true false true _ Wellformed.fuji_info
           eq_refl ltac:(vm_compute; reflexivity)).
Defined.

(** The small description, big-endian. *)
Lemma DeviceInfo_header_little_endian_witness :
  exists c bs,
    PTP.DeviceInfo true false true = Ok c /\
    build c PTP.sample_info = Ok bs /\
    firstn 8 bs = [x64; x00; x06; x00; x00; x00; x64; x00].
Proof.
  eexists. eexists. split; [reflexivity|].
  split; [vm_compute; reflexivity|].
  apply (DeviceInfo_header_little_endian true false true _ PTP.sample_info _
           eq_refl).
  vm_compute. reflexivity.
Defined.

(** Two bytes handed to an Event parser. *)
Lemma frame_parse_consumes_witness :
  exists c,
    PTP.Event true true false = Ok c /\
    exists e, parse c [x02; x40] = Raise e.
Proof.
  eexists. split; [reflexivity|].
  exact (proj2 (frame_parse_consumes true PTP.EventFrame true false _ eq_refl)
           [x02; x40] ltac:(cbn; lia)).
Defined.

End WireFacts.
